(** * agent-vertical: the TypeScript client bindings and the evaluation engine

    The development embeds the two implementations of the typed HTTP client
    of the agent-vertical server (the one built on [@aumos/sdk-core] and the
    one built on the Fetch API), the result envelope of [types.ts], and the
    parts of the certification and compliance engine that the properties
    below talk about.

    JavaScript strings are sequences of UTF-16 code units, promises are
    completions (a value or a thrown value), and the network is a function
    from requests to replies together with a log of the requests that were
    put on the wire. *)

From Stdlib Require Import NArith ZArith List String Ascii Bool Lia QArith.
From Stdlib Require Import DecimalString.
Import ListNotations.

Set Implicit Arguments.
Set Warnings "-register-all".
Close Scope Q_scope.

(* ===================================================================== *)
(** ** JavaScript values                                                  *)
(* ===================================================================== *)

Module JS.

(** A string is a list of UTF-16 code units. *)
Definition jsstring := list N.

(** ASCII literals of the source text. *)
Definition lit (s : string) : jsstring :=
  map N_of_ascii (list_ascii_of_string s).

Fixpoint jsstring_eqb (a b : jsstring) : bool :=
  match a, b with
  | [], [] => true
  | x :: a', y :: b' => N.eqb x y && jsstring_eqb a' b'
  | _, _ => false
  end.

(** Values a [throw] can carry, classified by the first [instanceof] test
    of [callApi] that accepts them (HttpError, TimeoutError, NetworkError,
    AumosError, Error, anything else).  [ThrownValue] carries
    [String(error)]; [body] of an HttpError carries [String(error.body)]
    and is [None] when the body is [null] or [undefined]. *)
Inductive Thrown :=
| ThrownHttpError (message : jsstring) (body : option jsstring) (statusCode : Z)
| ThrownTimeoutError (message : jsstring)
| ThrownNetworkError (message : jsstring)
| ThrownAumosError (code : jsstring) (message : jsstring) (statusCode : option Z)
| ThrownError (name : string) (message : jsstring)
| ThrownValue (str : jsstring).

(** [err instanceof Error ? err.message : String(err)]. *)
Definition message_of (err : Thrown) : jsstring :=
  match err with
  | ThrownHttpError m _ _ => m
  | ThrownTimeoutError m => m
  | ThrownNetworkError m => m
  | ThrownAumosError _ m _ => m
  | ThrownError _ m => m
  | ThrownValue s => s
  end.

(** The completion of an evaluation: a value, or a thrown value.  For an
    [async] function the first is a fulfilled promise and the second a
    rejected one. *)
Inductive Completion (A : Type) :=
| Return (a : A)
| Throw (e : Thrown).
Arguments Return {A} a.
Arguments Throw {A} e.

Definition cbind {A B} (c : Completion A) (k : A -> Completion B) : Completion B :=
  match c with
  | Return a => k a
  | Throw e => Throw e
  end.

(** JSON values, as [response.json()] and [JSON.parse] produce them. *)
Inductive Json :=
| JNull
| JBool (b : bool)
| JNumber (x : Q)
| JString (s : jsstring)
| JArray (items : list Json)
| JObject (fields : list (jsstring * Json)).

Fixpoint lookup {V} (k : jsstring) (fields : list (jsstring * V)) : option V :=
  match fields with
  | [] => None
  | (k', v) :: rest =>
      match lookup k rest with
      | Some v' => Some v'
      | None => if jsstring_eqb k k' then Some v else None
      end
  end.

(** [o.k] where [k] is neither an index nor a built-in property name:
    reading a property of [null] throws a TypeError, an object yields the
    member (the last one when the text repeated the key), every other
    value yields [undefined] (here [None]). *)
Definition getProp (o : Json) (k : string) : Completion (option Json) :=
  match o with
  | JNull =>
      Throw (ThrownError "TypeError"
               (lit "Cannot read properties of null (reading '" ++ lit k ++ lit "')"))
  | JObject fields => Return (lookup (lit k) fields)
  | _ => Return None
  end.

(** [x ?? d]. *)
Definition nullish (x : option Json) (d : Json) : Json :=
  match x with
  | None => d
  | Some JNull => d
  | Some v => v
  end.

(** The decimal digits of an integer: what [String(n)] is for a safe
    integer [n] (up to 2^53 - 1 in absolute value). *)
Definition String_of_int (n : Z) : jsstring :=
  lit (NilZero.string_of_int (Z.to_int n)).

(** A number, as far as the clients use one: they only convert it with
    [String], so a number is given with what [String] makes of it (digits,
    a fraction, an exponent, [NaN], ...). *)
Record Number := { String_of_number : jsstring }.

(** The safe integer [n] as a number. *)
Definition integer (n : Z) : Number := {| String_of_number := String_of_int n |}.

(** *** [encodeURIComponent] (ECMAScript, Encode with the unreserved set) *)

Definition between (lo hi c : N) : bool := N.leb lo c && N.leb c hi.

Definition isAlnum (c : N) : bool :=
  between 65 90 c || between 97 122 c || between 48 57 c.

(** [A-Z a-z 0-9 - _ . ! ~ * ' ( )] *)
Definition uriUnescaped (c : N) : bool :=
  isAlnum c || existsb (N.eqb c) [45; 95; 46; 33; 126; 42; 39; 40; 41]%N.

Definition isHighSurrogate (c : N) : bool := between 55296 56319 c.
Definition isLowSurrogate (c : N) : bool := between 56320 57343 c.

Definition codePoint (hi lo : N) : N :=
  ((hi - 55296) * 1024 + (lo - 56320) + 65536)%N.

Definition utf8 (cp : N) : list N :=
  if N.ltb cp 128 then [cp]
  else if N.ltb cp 2048 then [192 + cp / 64; 128 + cp mod 64]%N
  else if N.ltb cp 65536 then
    [224 + cp / 4096; 128 + (cp / 64) mod 64; 128 + cp mod 64]%N
  else
    [240 + cp / 262144; 128 + (cp / 4096) mod 64;
     128 + (cp / 64) mod 64; 128 + cp mod 64]%N.

Definition hexDigit (d : N) : N :=
  if N.ltb d 10 then (48 + d)%N else (55 + d)%N.

(** ["%XX"] in upper case. *)
Definition percent (octet : N) : jsstring :=
  [37%N; hexDigit (octet / 16); hexDigit (octet mod 16)].

Definition percentEncode (cp : N) : jsstring :=
  List.concat (map percent (utf8 cp)).

Definition URIError : Thrown := ThrownError "URIError" (lit "URI malformed").

Fixpoint encodeURIComponent (s : jsstring) : Completion jsstring :=
  match s with
  | [] => Return []
  | c :: rest =>
      if uriUnescaped c then
        cbind (encodeURIComponent rest) (fun r => Return (c :: r))
      else if isHighSurrogate c then
        match rest with
        | d :: rest' =>
            if isLowSurrogate d then
              cbind (encodeURIComponent rest')
                    (fun r => Return (percentEncode (codePoint c d) ++ r))
            else Throw URIError
        | [] => Throw URIError
        end
      else if isLowSurrogate c then Throw URIError
      else
        cbind (encodeURIComponent rest)
              (fun r => Return (percentEncode c ++ r))
  end.

(** *** [URLSearchParams.prototype.toString]
    (application/x-www-form-urlencoded serialisation) *)

(** [A-Z a-z 0-9 * - . _] are kept. *)
Definition formUnescaped (c : N) : bool :=
  isAlnum c || existsb (N.eqb c) [42; 45; 46; 95]%N.

(** Conversion to scalar values: a lone surrogate becomes U+FFFD. *)
Fixpoint formEncode (s : jsstring) : jsstring :=
  match s with
  | [] => []
  | c :: rest =>
      if formUnescaped c then c :: formEncode rest
      else if N.eqb c 32 then 43%N :: formEncode rest
      else if isHighSurrogate c then
        match rest with
        | d :: rest' =>
            if isLowSurrogate d then
              percentEncode (codePoint c d) ++ formEncode rest'
            else percentEncode 65533 ++ formEncode rest
        | [] => percentEncode 65533
        end
      else if isLowSurrogate c then percentEncode 65533 ++ formEncode rest
      else percentEncode c ++ formEncode rest
  end.

(** An object used as a string-keyed record, in insertion order. *)
Definition Record_ (V : Type) := list (jsstring * V).

(** [o[k] = v]: an existing key keeps its place. *)
Fixpoint set {V} (k : jsstring) (v : V) (o : Record_ V) : Record_ V :=
  match o with
  | [] => [(k, v)]
  | (k', v') :: rest =>
      if jsstring_eqb k k' then (k, v) :: rest else (k', v') :: set k v rest
  end.

(** [{ ...a, ...b }]. *)
Definition spread {V} (a b : Record_ V) : Record_ V :=
  fold_left (fun o kv => set (fst kv) (snd kv) o) b a.

Fixpoint joinParams (ps : list (jsstring * jsstring)) : jsstring :=
  match ps with
  | [] => []
  | [(k, v)] => formEncode k ++ [61%N] ++ formEncode v
  | (k, v) :: rest => formEncode k ++ [61%N] ++ formEncode v ++ [38%N] ++ joinParams rest
  end.

End JS.

(* ===================================================================== *)
(** ** types.ts: the result envelope and the request payloads             *)
(* ===================================================================== *)

Module Types.
Import JS.

(** [ApiError].  The fetch-based client fills the two members from the
    response body through an unchecked cast, so at run time they hold
    whatever JSON value the server sent. *)
Record ApiError := { error : Json; detail : Json }.

(** [ApiResult<T>]: [{ ok: true, data }] or [{ ok: false, error, status }]. *)
Inductive ApiResult :=
| OkTrue (data : Json)
| OkFalse (error : ApiError) (status : Z).

(** [TemplateConfig]; the parameter overrides are taken to be JSON values,
    which [JSON.stringify] serialises (a BigInt or a cyclic object, which
    it refuses, is not a value of this record). *)
Record TemplateConfig := {
  template_name : jsstring;
  parameter_overrides : option (Record_ Json);
  validate_before_apply : option bool
}.

(** The members [JSON.stringify] keeps: an [undefined] member is dropped. *)
Definition TemplateConfig_toJson (c : TemplateConfig) : Json :=
  JObject
    ([(lit "template_name", JString (template_name c))]
     ++ match parameter_overrides c with
        | Some o => [(lit "parameter_overrides", JObject o)]
        | None => []
        end
     ++ match validate_before_apply c with
        | Some b => [(lit "validate_before_apply", JBool b)]
        | None => []
        end).

(** [TemplateValidationResult] as it travels in a response body. *)
Record TemplateValidationResult := {
  valid : bool;
  warnings : list jsstring;
  tvr_template_name : jsstring
}.

Definition TemplateValidationResult_toJson (r : TemplateValidationResult) : Json :=
  JObject [(lit "valid", JBool (valid r));
           (lit "warnings", JArray (map JString (warnings r)));
           (lit "template_name", JString (tvr_template_name r))].

(** The argument of [getTemplates]. *)
Record TemplatesOptions := {
  to_domain : option jsstring;
  to_limit : option Number
}.

(** The argument of [getToolCollection]. *)
Record ToolOptions := {
  tc_domain : option jsstring;
  tc_template_name : option jsstring
}.

(** [AgentVerticalClientConfig]. *)
Record AgentVerticalClientConfig := {
  baseUrl : jsstring;
  timeoutMs : option Z;
  headers : option (Record_ jsstring)
}.

End Types.

(* ===================================================================== *)
(** ** The wire: requests, replies, and the effect of a call              *)
(* ===================================================================== *)

Module Wire.
Import JS.

Inductive Method := GET | POST.

(** One HTTP request as the client hands it to [fetch] (or as a transport
    records it): the URL and the header names are those the client wrote,
    before the platform normalises them (dot segments of the path, the
    case of header names).  The body is kept as the JSON value whose text
    is sent. *)
Record Request := {
  url : jsstring;
  method : Method;
  req_headers : Record_ jsstring;
  req_body : option Json
}.

(** A [Response]: [ok], [status], and what [response.json()] settles to.
    The body is taken to arrive to its end: it parses, or the parse
    throws.  (A body that never ends is the subject of [Timing].) *)
Record Response := {
  ok : bool;
  status : Z;
  json : Completion Json
}.

(** What the network does with a request: after [latency] milliseconds the
    [fetch] promise settles (a response, or a rejection such as a refused
    connection), or nothing ever comes back. *)
Inductive Reply :=
| Answer (latency : Z) (result : Completion Response)
| Silence.

Definition Net := Request -> Reply.

(** A reply that makes the [fetch] promise reject before [timeout], or
    that does not come before it. *)
Definition transportFailure (reply : Reply) (timeout : Z) : Prop :=
  match reply with
  | Silence => True
  | Answer latency r =>
      (timeout <= latency)%Z \/ exists e, r = Throw e
  end.

(** The requests put on the wire so far, oldest first. *)
Definition Log := list Request.

(** A computation that may put requests on the wire and may throw. *)
Definition IO (A : Type) := Log -> Completion A * Log.

Definition ret {A} (a : A) : IO A := fun log => (Return a, log).

Definition throw {A} (e : Thrown) : IO A := fun log => (Throw e, log).

Definition bind {A B} (c : IO A) (k : A -> IO B) : IO B :=
  fun log =>
    match c log with
    | (Return a, log') => k a log'
    | (Throw e, log') => (Throw e, log')
    end.

Definition lift {A} (c : Completion A) : IO A := fun log => (c, log).

(** [try { c } catch (e) { handler e }]. *)
Definition try_catch {A} (c : IO A) (handler : Thrown -> IO A) : IO A :=
  fun log =>
    match c log with
    | (Return a, log') => (Return a, log')
    | (Throw e, log') => handler e log'
    end.

(** The completion a call settles to, and the requests it sent. *)
Definition result {A} (c : IO A) : Completion A := fst (c []).
Definition sent {A} (c : IO A) : Log := snd (c []).

End Wire.

Declare Scope io_scope.
Delimit Scope io_scope with io.
Notation "x <- c ;; k" := (Wire.bind c (fun x => k))
  (at level 61, c at next level, right associativity) : io_scope.

(* ===================================================================== *)
(** ** The client interface (declared identically by both clients)        *)
(* ===================================================================== *)

Module Client.
Import JS Types Wire.

(** [AgentVerticalClient]: every method returns a promise of an
    [ApiResult]. *)
Record AgentVerticalClient := {
  getTemplates : option TemplatesOptions -> IO ApiResult;
  applyTemplate : TemplateConfig -> IO ApiResult;
  validateTemplate : jsstring -> IO ApiResult;
  getToolCollection : ToolOptions -> IO ApiResult;
  getDomainConfig : jsstring -> IO ApiResult;
  getPromptPattern : jsstring -> IO ApiResult;
  listDomains : IO ApiResult;
  getTemplate : jsstring -> IO ApiResult
}.

(** One call of one of the eight operations, with its argument. *)
Inductive Call :=
| CallGetTemplates (options : option TemplatesOptions)
| CallApplyTemplate (config : TemplateConfig)
| CallValidateTemplate (templateName : jsstring)
| CallGetToolCollection (options : ToolOptions)
| CallGetDomainConfig (domain : jsstring)
| CallGetPromptPattern (domain : jsstring)
| CallListDomains
| CallGetTemplate (templateName : jsstring).

Definition invoke (client : AgentVerticalClient) (call : Call) : IO ApiResult :=
  match call with
  | CallGetTemplates options => getTemplates client options
  | CallApplyTemplate config => applyTemplate client config
  | CallValidateTemplate templateName => validateTemplate client templateName
  | CallGetToolCollection options => getToolCollection client options
  | CallGetDomainConfig domain => getDomainConfig client domain
  | CallGetPromptPattern domain => getPromptPattern client domain
  | CallListDomains => listDomains client
  | CallGetTemplate templateName => getTemplate client templateName
  end.

(** The string a call embeds in the request path, when it embeds one. *)
Definition pathArgument (call : Call) : option jsstring :=
  match call with
  | CallValidateTemplate n | CallGetTemplate n => Some n
  | CallGetDomainConfig d | CallGetPromptPattern d => Some d
  | _ => None
  end.

(** The segments of the path such a call asks for, [segment] standing for
    the place of the argument. *)
Definition pathSegments (call : Call) (segment : jsstring) : list jsstring :=
  match call with
  | CallGetTemplate _ => [lit ""; lit "vertical"; lit "templates"; segment]
  | CallValidateTemplate _ =>
      [lit ""; lit "vertical"; lit "templates"; segment; lit "validate"]
  | CallGetDomainConfig _ =>
      [lit ""; lit "vertical"; lit "domains"; segment; lit "config"]
  | CallGetPromptPattern _ =>
      [lit ""; lit "vertical"; lit "domains"; segment; lit "rules"]
  | _ => []
  end.

(** Whether the argument of the call can be percent-encoded, that is,
    whether building the request path completes. *)
Definition encodes (call : Call) : bool :=
  match pathArgument call with
  | Some arg =>
      match encodeURIComponent arg with
      | Return _ => true
      | Throw _ => false
      end
  | None => true
  end.

(** Failures of the transport layer: a timeout or a network error. *)
Definition transportLayer (e : Thrown) : bool :=
  match e with
  | ThrownTimeoutError _ | ThrownNetworkError _ => true
  | _ => false
  end.

End Client.

(* ===================================================================== *)
(** ** The fetch-based client                                             *)
(* ===================================================================== *)

Module FetchClient.
Import JS Types Wire Client.
Local Open Scope io_scope.

(** [RequestInit] as the client fills it. *)
Record RequestInit := {
  init_method : Method;
  init_headers : Record_ jsstring;
  init_body : option Json
}.

Definition AbortError : Thrown :=
  ThrownError "AbortError" (lit "This operation was aborted").

(** [fetch(url, { ...init, signal })] where the signal aborts
    [abortAfter] milliseconds after the call: the request goes on the
    wire, and the promise settles with the reply when it comes first and
    rejects with the abort otherwise.  [abortAfter] is the delay of the
    timer as [setTimeout] runs it: the delay given, when that is between 1
    and 2^31 - 1. *)
Definition fetch (net : Net) (u : jsstring) (init : RequestInit)
           (abortAfter : Z) : IO Response :=
  fun log =>
    let req := {| url := u; method := init_method init;
                  req_headers := init_headers init;
                  req_body := init_body init |} in
    (match net req with
     | Answer latency r =>
         if (latency <? abortAfter)%Z then r else Throw AbortError
     | Silence => Throw AbortError
     end, log ++ [req]).

(** [fetchJson]: the timer that aborts the request is started before
    [fetch] and cleared as soon as [fetch] settles, so it bounds the wait
    for the response; the body is then parsed, and only then is
    [response.ok] looked at.  Everything after the start of the timer is
    inside the [try]. *)
Definition fetchJson (net : Net) (u : jsstring) (init : RequestInit)
           (timeoutMs : Z) : IO ApiResult :=
  try_catch
    (response <- fetch net u init timeoutMs ;;
     body <- lift (json response) ;;
     if negb (ok response) then
       e <- lift (getProp body "error") ;;
       d <- lift (getProp body "detail") ;;
       ret (OkFalse {| error := nullish e (JString (lit "Unknown error"));
                       detail := nullish d (JString (lit "")) |}
                    (status response))
     else ret (OkTrue body))
    (fun err =>
       ret (OkFalse {| error := JString (lit "Network error");
                       detail := JString (message_of err) |} 0)).

Definition buildHeaders (extraHeaders : option (Record_ jsstring))
  : Record_ jsstring :=
  spread [(lit "Content-Type", lit "application/json");
          (lit "Accept", lit "application/json")]
         (match extraHeaders with Some h => h | None => [] end).

Definition setIfDefined (k : string) (v : option jsstring)
           (params : Record_ jsstring) : Record_ jsstring :=
  match v with
  | Some s => set (lit k) s params
  | None => params
  end.

(** [timeoutMs = 30_000] in the destructuring of the configuration. *)
Definition timeoutOf (config : AgentVerticalClientConfig) : Z :=
  match timeoutMs config with
  | Some t => t
  | None => 30000%Z
  end.

Definition createAgentVerticalClient (net : Net)
           (config : AgentVerticalClientConfig) : AgentVerticalClient :=
  let baseUrl := baseUrl config in
  let timeoutMs := timeoutOf config in
  let baseHeaders := buildHeaders (headers config) in
  let get := {| init_method := GET; init_headers := baseHeaders;
                init_body := None |} in
  {| getTemplates := fun options =>
       let params := [] in
       let params :=
         setIfDefined "domain"
           (match options with Some o => to_domain o | None => None end) params in
       let params :=
         setIfDefined "limit"
           (match options with
            | Some o => option_map String_of_number (to_limit o)
            | None => None
            end) params in
       let query := joinParams params in
       fetchJson net
         (baseUrl ++ lit "/vertical/templates"
            ++ match query with [] => lit "" | _ => lit "?" ++ query end)
         get timeoutMs;
     applyTemplate := fun templateConfig =>
       fetchJson net
         (baseUrl ++ lit "/vertical/templates/apply")
         {| init_method := POST; init_headers := baseHeaders;
            init_body := Some (TemplateConfig_toJson templateConfig) |}
         timeoutMs;
     validateTemplate := fun templateName =>
       name <- lift (encodeURIComponent templateName) ;;
       fetchJson net
         (baseUrl ++ lit "/vertical/templates/" ++ name ++ lit "/validate")
         get timeoutMs;
     getToolCollection := fun options =>
       let params := [] in
       let params := setIfDefined "domain" (tc_domain options) params in
       let params := setIfDefined "template_name" (tc_template_name options) params in
       fetchJson net
         (baseUrl ++ lit "/vertical/tools?" ++ joinParams params)
         get timeoutMs;
     getDomainConfig := fun domain =>
       d <- lift (encodeURIComponent domain) ;;
       fetchJson net
         (baseUrl ++ lit "/vertical/domains/" ++ d ++ lit "/config")
         get timeoutMs;
     getPromptPattern := fun domain =>
       d <- lift (encodeURIComponent domain) ;;
       fetchJson net
         (baseUrl ++ lit "/vertical/domains/" ++ d ++ lit "/rules")
         get timeoutMs;
     listDomains :=
       fetchJson net (baseUrl ++ lit "/vertical/domains") get timeoutMs;
     getTemplate := fun templateName =>
       name <- lift (encodeURIComponent templateName) ;;
       fetchJson net
         (baseUrl ++ lit "/vertical/templates/" ++ name)
         get timeoutMs
  |}.

End FetchClient.

(* ===================================================================== *)
(** ** The client built on @aumos/sdk-core                                *)
(* ===================================================================== *)

Module SdkClient.
Import JS Types Wire Client.
Local Open Scope io_scope.

(** The part of the @aumos/sdk-core interface the client uses.  The
    package is an external dependency: its [createHttpClient] is a
    parameter of the client below. *)
Record HttpClientConfig := {
  hc_baseUrl : jsstring;
  hc_timeout : Z;
  hc_defaultHeaders : option (Record_ jsstring)
}.

Record HttpResponse := {
  data : Json;
  hr_status : Z
}.

Record RequestOptions := { queryParams : Record_ jsstring }.

Record HttpClient := {
  get : jsstring -> option RequestOptions -> IO HttpResponse;
  post : jsstring -> TemplateConfig -> IO HttpResponse
}.

(** An operation handed to [callApi] that uses the [HttpClient] at most
    once: one [get], one [post], or a throw before either. *)
Inductive SingleRequest (http : HttpClient) : IO HttpResponse -> Prop :=
| single_get path options : SingleRequest http (get http path options)
| single_post path body : SingleRequest http (post http path body)
| single_throw e : SingleRequest http (throw e).

(** Every request of [http] throws [e]. *)
Definition alwaysThrows (http : HttpClient) (e : Thrown) : Prop :=
  (forall path options log, fst (get http path options log) = Throw e) /\
  (forall path body log, fst (post http path body log) = Throw e).

(** Every request of [http] returns [r]. *)
Definition alwaysReturns (http : HttpClient) (r : HttpResponse) : Prop :=
  (forall path options log, fst (get http path options log) = Return r) /\
  (forall path body log, fst (post http path body log) = Return r).

(** The [catch] block of [callApi]: the envelope for a thrown value. *)
Definition caught (error : Thrown) : ApiResult :=
  match error with
  | ThrownHttpError message body statusCode =>
      OkFalse {| error := JString message;
                 detail := JString (match body with
                                    | Some b => b
                                    | None => lit ""
                                    end) |}
              statusCode
  | ThrownTimeoutError message =>
      OkFalse {| error := JString (lit "Request timed out");
                 detail := JString message |} 0
  | ThrownNetworkError message =>
      OkFalse {| error := JString (lit "Network error");
                 detail := JString message |} 0
  | ThrownAumosError code message statusCode =>
      OkFalse {| error := JString code; detail := JString message |}
              (match statusCode with Some s => s | None => 0%Z end)
  | _ =>
      OkFalse {| error := JString (lit "Unexpected error");
                 detail := JString (message_of error) |} 0
  end.

Definition callApi (operation : IO HttpResponse) : IO ApiResult :=
  try_catch
    (response <- operation ;;
     ret (OkTrue (data response)))
    (fun error => ret (caught error)).

Definition setIfDefined (k : string) (v : option jsstring)
           (params : Record_ jsstring) : Record_ jsstring :=
  match v with
  | Some s => set (lit k) s params
  | None => params
  end.

(** The object literal handed to [createHttpClient]. *)
Definition httpClientConfig (config : AgentVerticalClientConfig) : HttpClientConfig :=
  {| hc_baseUrl := baseUrl config;
     hc_timeout := match timeoutMs config with
                   | Some t => t
                   | None => 30000%Z
                   end;
     hc_defaultHeaders := headers config |}.

Definition createAgentVerticalClient
           (createHttpClient : HttpClientConfig -> HttpClient)
           (config : AgentVerticalClientConfig) : AgentVerticalClient :=
  let http := createHttpClient (httpClientConfig config) in
  {| getTemplates := fun options =>
       let queryParams := [] in
       let queryParams :=
         setIfDefined "domain"
           (match options with Some o => to_domain o | None => None end)
           queryParams in
       let queryParams :=
         setIfDefined "limit"
           (match options with
            | Some o => option_map String_of_number (to_limit o)
            | None => None
            end) queryParams in
       callApi (get http (lit "/vertical/templates")
                    (Some {| queryParams := queryParams |}));
     applyTemplate := fun templateConfig =>
       callApi (post http (lit "/vertical/templates/apply") templateConfig);
     validateTemplate := fun templateName =>
       callApi
         (name <- lift (encodeURIComponent templateName) ;;
          get http (lit "/vertical/templates/" ++ name ++ lit "/validate") None);
     getToolCollection := fun options =>
       let queryParams := [] in
       let queryParams := setIfDefined "domain" (tc_domain options) queryParams in
       let queryParams :=
         setIfDefined "template_name" (tc_template_name options) queryParams in
       callApi (get http (lit "/vertical/tools")
                    (Some {| queryParams := queryParams |}));
     getDomainConfig := fun domain =>
       callApi
         (d <- lift (encodeURIComponent domain) ;;
          get http (lit "/vertical/domains/" ++ d ++ lit "/config") None);
     getPromptPattern := fun domain =>
       callApi
         (d <- lift (encodeURIComponent domain) ;;
          get http (lit "/vertical/domains/" ++ d ++ lit "/rules") None);
     listDomains :=
       callApi (get http (lit "/vertical/domains") None);
     getTemplate := fun templateName =>
       callApi
         (name <- lift (encodeURIComponent templateName) ;;
          get http (lit "/vertical/templates/" ++ name) None)
  |}.

End SdkClient.

(* ===================================================================== *)
(** ** Concrete configurations, networks and replies                      *)
(* ===================================================================== *)

Module Samples.
Import JS Types Wire.

Definition localhost : AgentVerticalClientConfig :=
  {| baseUrl := lit "http://localhost:8093"; timeoutMs := None; headers := None |}.

(** A network on which nothing ever comes back. *)
Definition silentNet : Net := fun _ => Silence.

(** A network that answers every request after [latency] ms with [r]. *)
Definition constNet (latency : Z) (r : Completion Response) : Net :=
  fun _ => Answer latency r.

Definition SyntaxError : Thrown :=
  ThrownError "SyntaxError" (lit "Unexpected token < in JSON at position 0").

(** [500 Internal Server Error] with an HTML body. *)
Definition htmlError500 : Response :=
  {| ok := false; status := 500; json := Throw SyntaxError |}.

(** [404] with the server's JSON error payload. *)
Definition jsonError404 : Response :=
  {| ok := false; status := 404;
     json := Return (JObject [(lit "error", JString (lit "Not found"));
                              (lit "detail", JString (lit "no such template"))]) |}.

Definition validation : TemplateValidationResult :=
  {| valid := true; warnings := []; tvr_template_name := lit "clinical_documentation" |}.

Definition ok200 (body : Json) : Response :=
  {| ok := true; status := 200; json := Return body |}.

(** A string that holds a lone high surrogate. *)
Definition loneSurrogate : jsstring := [55296%N].

(** An [HttpClient] whose every request throws [e]. *)
Definition throwingHttpClient (e : Thrown) : SdkClient.HttpClient :=
  {| SdkClient.get := fun _ _ => throw e;
     SdkClient.post := fun _ _ => throw e |}.

Definition boom : Thrown := ThrownError "Error" (lit "boom").

(** What the recording transport below throws after taking a request. *)
Definition noAnswer : Thrown := ThrownNetworkError (lit "no answer").

(** A test double for the transport: it records each call as one request,
    [get] as a GET and [post] as a POST of the path it is given, and
    answers none. *)
Definition recordingHttpClient (cfg : SdkClient.HttpClientConfig)
  : SdkClient.HttpClient :=
  {| SdkClient.get := fun path _ log =>
       (Throw noAnswer,
        log ++ [{| url := SdkClient.hc_baseUrl cfg ++ path; method := GET;
                   req_headers := []; req_body := None |}]);
     SdkClient.post := fun path body log =>
       (Throw noAnswer,
        log ++ [{| url := SdkClient.hc_baseUrl cfg ++ path; method := POST;
                   req_headers := [];
                   req_body := Some (TemplateConfig_toJson body) |}]) |}.

End Samples.

(* ===================================================================== *)
(** ** Paths                                                              *)
(* ===================================================================== *)

Module Url.
Import JS.

(** The characters that end a path segment or the path: [/], [?], [#]. *)
Definition delimiter (c : N) : bool :=
  N.eqb c 47 || N.eqb c 63 || N.eqb c 35.

(** The pieces of a path between its [/] separators. *)
Fixpoint segments (path : jsstring) : list jsstring :=
  match path with
  | [] => [[]]
  | c :: rest =>
      if N.eqb c 47 then [] :: segments rest
      else match segments rest with
           | seg :: more => (c :: seg) :: more
           | [] => [[c]]
           end
  end.

(** The single-dot and double-dot path segments of the URL parser that
    [fetch] applies, with their percent-encoded spellings. *)
Definition singleDotSegments : list jsstring :=
  map lit ["."; "%2e"; "%2E"]%string.

Definition doubleDotSegments : list jsstring :=
  map lit [".."; ".%2e"; ".%2E"; "%2e."; "%2E.";
           "%2e%2e"; "%2e%2E"; "%2E%2e"; "%2E%2E"]%string.

Definition isSingleDot (s : jsstring) : bool :=
  existsb (jsstring_eqb s) singleDotSegments.

Definition isDoubleDot (s : jsstring) : bool :=
  existsb (jsstring_eqb s) doubleDotSegments.

(** The path state of the URL parser: the segments written after the
    [parsed] ones are taken one by one; a double-dot segment removes the
    last parsed segment, a single-dot segment is dropped (either leaves an
    empty segment when it ends the path), any other segment is kept. *)
Fixpoint resolveDots (parsed : list jsstring) (written : list jsstring)
  : list jsstring :=
  match written with
  | [] => parsed
  | s :: rest =>
      let ends := match rest with [] => true | _ => false end in
      if isDoubleDot s then
        resolveDots (if ends then removelast parsed ++ [[]]
                     else removelast parsed) rest
      else if isSingleDot s then
        resolveDots (if ends then parsed ++ [[]] else parsed) rest
      else resolveDots (parsed ++ [s]) rest
  end.

(** The segments of the path a request is made for, when [path] is written
    after a base URL whose own path has the segments [base]. *)
Definition requestedSegments (base : list jsstring) (path : jsstring)
  : list jsstring :=
  resolveDots base (tl (segments path)).

End Url.

(* ===================================================================== *)
(** ** The evaluation engine                                              *)
(* ===================================================================== *)

(** The engine's implementation (rule matcher, compliance checker, grounding
    validator, certification evaluator) is not among the sources; only the
    declarations of [types.ts] mirror it.  Its definitions below follow the
    specification. *)

Module Engine.

Local Open Scope string_scope.

(** [RuleType] of [types.ts]. *)
Inductive RuleType :=
| PROHIBITED_PHRASE
| REQUIRED_DISCLAIMER
| PROHIBITED_PATTERN
| REQUIRED_PATTERN.

(** Modelled from the spec: the severities of a rule, which [types.ts]
    keeps as a string: "severity in {low, medium, high, critical}". *)
Inductive Severity := low | medium | high | critical.

(** [ComplianceRule] of [types.ts]. *)
Record ComplianceRule := {
  rule_id : string;
  rule_type : RuleType;
  pattern : string;
  description : string;
  severity : Severity;
  remediation : string;
  is_regex : bool
}.

Definition Span := (nat * nat)%type.

(** *** RuleMatcher *)

Definition lower_ascii (a : ascii) : ascii :=
  let n := nat_of_ascii a in
  if Nat.leb 65 n && Nat.leb n 90 then ascii_of_nat (n + 32) else a.

Definition casefold (s : string) : list ascii :=
  map lower_ascii (list_ascii_of_string s).

Fixpoint starts_with (p t : list ascii) : bool :=
  match p, t with
  | [], _ => true
  | a :: p', b :: t' => Ascii.eqb a b && starts_with p' t'
  | _ :: _, [] => false
  end.

Fixpoint find_from (p t : list ascii) (i : nat) : option nat :=
  if starts_with p t then Some i
  else match t with
       | [] => None
       | _ :: t' => find_from p t' (S i)
       end.

(** Modelled from the spec: the literal branch of RuleMatcher, which is
    missing from the sources: "otherwise treated as case-insensitive
    literal containment".  The span is that of the first occurrence. *)
Definition literal_search (pat text : string) : option Span :=
  match find_from (casefold pat) (casefold text) 0 with
  | Some i => Some (i, i + List.length (casefold pat))
  | None => None
  end.

(** Modelled from the spec: the outcome of RuleMatcher, missing from the
    sources: "MatchOutcome{triggered: bool, span: optional(start,end)}". *)
Record MatchOutcome := {
  triggered : bool;
  span : option Span
}.

(** Modelled from the spec: the violations of ComplianceChecker, missing
    from the sources: "Violation{rule_id, severity, remediation,
    matched_span}". *)
Record Violation := {
  v_rule_id : string;
  v_severity : Severity;
  v_remediation : string;
  matched_span : option Span
}.

Section Matching.

(** The regex dialect is not prescribed: the search of a compiled
    pattern in a text is a parameter. *)
Variable regex_search : string -> string -> option Span.

Definition search (rule : ComplianceRule) (text : string) : option Span :=
  if is_regex rule then regex_search (pattern rule) text
  else literal_search (pattern rule) text.

(** Modelled from the spec: RuleMatcher's [match], which is missing from
    the sources: "triggered = pattern found in text (literal containment
    or regex search)", for the four rule types alike. *)
Definition match_ (rule : ComplianceRule) (text : string) : MatchOutcome :=
  let found := search rule text in
  {| triggered := match found with Some _ => true | None => false end;
     span := found |}.

(** Modelled from the spec: the polarity of the four rule types, missing
    from the sources: for PROHIBITED_PHRASE and PROHIBITED_PATTERN "a
    hit is a violation"; for REQUIRED_DISCLAIMER and REQUIRED_PATTERN
    "absence is the violation". *)
Definition is_violation (rule : ComplianceRule) (outcome : MatchOutcome) : bool :=
  match rule_type rule with
  | PROHIBITED_PHRASE | PROHIBITED_PATTERN => triggered outcome
  | REQUIRED_DISCLAIMER | REQUIRED_PATTERN => negb (triggered outcome)
  end.

(** *** ComplianceChecker *)

Definition violation_of (rule : ComplianceRule) (outcome : MatchOutcome) : Violation :=
  {| v_rule_id := rule_id rule;
     v_severity := severity rule;
     v_remediation := remediation rule;
     matched_span := span outcome |}.

(** Modelled from the spec: ComplianceChecker's [check], which is
    missing from the sources: "evaluates every rule in the given order
    ... no short-circuiting; a response may violate multiple rules
    simultaneously and all must be reported". *)
Fixpoint check (rules : list ComplianceRule) (text : string) : list Violation :=
  match rules with
  | [] => []
  | rule :: rest =>
      let outcome := match_ rule text in
      if is_violation rule outcome
      then violation_of rule outcome :: check rest text
      else check rest text
  end.

End Matching.

(** "The pattern is found in the text": the folded pattern occurs in the
    folded text, or the regex search has a match. *)
Definition contains_ci (pat text : string) : Prop :=
  exists pre post, casefold text = (pre ++ casefold pat ++ post)%list.

Definition found (regex_search : string -> string -> option Span)
           (rule : ComplianceRule) (text : string) : Prop :=
  if is_regex rule then regex_search (pattern rule) text <> None
  else contains_ci (pattern rule) text.

(** [check] reports a violation of the rule. *)
Definition reports (violations : list Violation) (rule : ComplianceRule) : Prop :=
  exists v, In v violations /\ v_rule_id v = rule_id rule.

(** *** GroundingValidator *)

(** Modelled from the spec: the result of GroundingValidator, missing from
    the sources: "per-claim record {claim text span, matched citation id or
    none, confidence}" and the aggregate fraction. *)
Record ClaimRecord := {
  claim_text : string;
  matched_citation : option string;
  confidence : Q
}.

Record GroundingResult := {
  claims : list ClaimRecord;
  supported_claims : nat;
  total_claims : nat;
  grounded_fraction : Q
}.

Section Grounding.

(** Segmentation into sentences, the disclaimer pattern, tokenisation
    (case-folded), the stop words and the overlap threshold are
    configurable or left open by the specification. *)
Variable sentences : string -> list string.
Variable is_disclaimer : string -> bool.
Variable tokens : string -> list string.
Variable stop_words : list string.
Variable overlap_threshold : Q.

(** Modelled from the spec: claim extraction of GroundingValidator,
    missing from the sources: "segment response into sentence-level
    claims", sentences matching the disclaimer pattern "are excluded
    from claim scoring". *)
Definition extract_claims (response : string) : list string :=
  filter (fun s => negb (is_disclaimer s)) (sentences response).

(** Modelled from the spec: the tokens that count, in the matching that is
    missing from the sources: "case-insensitive, stop-words removed". *)
Definition content_tokens (s : string) : list string :=
  filter (fun t => negb (existsb (String.eqb t) stop_words)) (tokens s).

(** Modelled from the spec: the lexical overlap of the matching that is
    missing from the sources: the fraction "of claim tokens present in the
    source"; it is taken to be [0] for a claim without tokens. *)
Definition overlap (claim source : string) : Q :=
  let ct := content_tokens claim in
  let st := content_tokens source in
  match List.length ct with
  | O => 0%Q
  | S n =>
      (Z.of_nat (List.length (filter (fun t => existsb (String.eqb t) st) ct))
       # Pos.of_succ_nat n)%Q
  end.

(** Modelled from the spec: claim-to-citation matching, missing from the
    sources: a claim is supported "if its lexical token overlap ... with
    some knowledge-base entry exceeds a configurable overlap threshold";
    the first such entry is the citation. *)
Fixpoint find_citation (claim : string) (kb : list (string * string))
  : option (string * Q) :=
  match kb with
  | [] => None
  | (citation_id, source) :: rest =>
      let o := overlap claim source in
      if Qle_bool o overlap_threshold then find_citation claim rest
      else Some (citation_id, o)
  end.

(** Modelled from the spec: the per-claim record of the validator that is
    missing from the sources. *)
Definition score_claim (kb : list (string * string)) (claim : string) : ClaimRecord :=
  match find_citation claim kb with
  | Some (citation_id, o) =>
      {| claim_text := claim; matched_citation := Some citation_id; confidence := o |}
  | None =>
      {| claim_text := claim; matched_citation := None; confidence := 0%Q |}
  end.

Definition is_supported (c : ClaimRecord) : bool :=
  match matched_citation c with Some _ => true | None => false end.

(** Modelled from the spec: the aggregate of GroundingValidator, missing
    from the sources: "grounded_fraction = supported_claims /
    total_claims (define as 1.0 when total_claims = 0 ...)". *)
Definition fraction (supported total : nat) : Q :=
  match total with
  | O => 1%Q
  | S n => (Z.of_nat supported # Pos.of_succ_nat n)%Q
  end.

(** Modelled from the spec: GroundingValidator's [validate], missing
    from the sources: "validate(response text, knowledge_base: mapping
    citation_id -> source text) -> GroundingResult". *)
Definition validate (response : string) (knowledge_base : list (string * string))
  : GroundingResult :=
  let records := map (score_claim knowledge_base) (extract_claims response) in
  let supported := List.length (filter is_supported records) in
  let total := List.length records in
  {| claims := records;
     supported_claims := supported;
     total_claims := total;
     grounded_fraction := fraction supported total |}.

End Grounding.

(** *** CertificationEvaluator: the checks a tier requires *)

(** Modelled from the spec: the tiers, whose declaration is missing from
    the sources: "ordered {INFORMATIONAL < ADVISORY < DECISION_SUPPORT}". *)
Inductive RiskTier := INFORMATIONAL | ADVISORY | DECISION_SUPPORT.

(** Modelled from the spec: the identifiers of the checks of section 4.5,
    in the evaluator that is missing from the sources. *)
Inductive CheckId :=
| NoCriticalSafetyViolation
| DisclaimerPresence
| AccuracyAtLeastThreshold
| GroundedFractionAtLeastMinimum
| NoViolationOfSeverityHighOrAbove.

(** Modelled from the spec: the checks each tier adds, in the evaluator
    that is missing from the sources: INFORMATIONAL "zero
    critical-severity violations on the sample"; ADVISORY "plus
    disclaimer-presence and accuracy metric >= threshold";
    DECISION_SUPPORT "plus grounded_fraction >= configured minimum and
    zero violations of severity >= high from any source". *)
Definition added_checks (tier : RiskTier) : list CheckId :=
  match tier with
  | INFORMATIONAL => [NoCriticalSafetyViolation]
  | ADVISORY => [DisclaimerPresence; AccuracyAtLeastThreshold]
  | DECISION_SUPPORT =>
      [GroundedFractionAtLeastMinimum; NoViolationOfSeverityHighOrAbove]
  end.

Definition tier_rank (tier : RiskTier) : nat :=
  match tier with
  | INFORMATIONAL => 0
  | ADVISORY => 1
  | DECISION_SUPPORT => 2
  end.

Definition tiers : list RiskTier := [INFORMATIONAL; ADVISORY; DECISION_SUPPORT].

(** Modelled from the spec: the escalating table from tiers to required
    checks, missing from the sources: a tier requires what it adds and
    what every lower tier adds ("ADVISORY: INFORMATIONAL checks plus ...",
    "DECISION_SUPPORT: ADVISORY checks plus ..."). *)
Definition required_checks (tier : RiskTier) : list CheckId :=
  flat_map added_checks
    (filter (fun t => Nat.leb (tier_rank t) (tier_rank tier)) tiers).

(** Concrete parameters and rules for running the checker and the
    validator. *)
Definition no_regex : string -> string -> option Span := fun _ _ => None.

Definition no_guarantee : ComplianceRule :=
  {| rule_id := "fca.no_guarantee";
     rule_type := PROHIBITED_PHRASE;
     pattern := "guaranteed returns";
     description := "No promise of returns";
     severity := high;
     remediation := "Remove the promise";
     is_regex := false |}.

Definition medical_disclaimer : ComplianceRule :=
  {| rule_id := "hipaa.disclaimer";
     rule_type := REQUIRED_DISCLAIMER;
     pattern := "This is not medical advice";
     description := "Disclaimer must be present";
     severity := medium;
     remediation := "Add the disclaimer";
     is_regex := false |}.

Definition sample_rules : list ComplianceRule := [no_guarantee; medical_disclaimer].

Definition sample_text : string := "We offer GUARANTEED RETURNS to all.".

Definition disclaimer_only : string := "This is not medical advice.".

Definition sample_kb : list (string * string) :=
  [("kb1", "Aspirin thins the blood.")].

Definition one_sentence (s : string) : list string :=
  match s with
  | EmptyString => []
  | _ => [s]
  end.

Definition one_token (s : string) : list string := [s].

End Engine.

(* ===================================================================== *)
(** ** [fetchJson] over time                                              *)
(* ===================================================================== *)

Module Timing.

(** What happens to the request of [fetchJson] when nothing aborts it: the
    response comes after [headersAfter] ms and its body is read in
    [bodyAfter] ms more (or never to the end); or the [fetch] promise
    rejects after some ms; or nothing ever happens. *)
Inductive Course :=
| Responds (headersAfter : Z) (bodyAfter : option Z)
| Rejects (after : Z)
| Hangs.

(** The delay [setTimeout] runs a timer with: the delay given when that
    is between 1 and 2^31 - 1, and 1 ms otherwise. *)
Definition setTimeout_delay (ms : Z) : Z :=
  if ((1 <=? ms) && (ms <=? 2147483647))%Z then ms else 1%Z.

(** The instant, in ms after the call, at which the promise of [fetchJson]
    settles ([None]: never).  The timer is started before [fetch] and
    aborts it when it fires; it is cleared as soon as [fetch] settles,
    before [response.json()] is awaited, and in the [catch]. *)
Definition fetchJson_settles (timeoutMs : Z) (course : Course) : option Z :=
  let delay := setTimeout_delay timeoutMs in
  match course with
  | Responds headersAfter bodyAfter =>
      if (headersAfter <? delay)%Z then
        match bodyAfter with
        | Some b => Some (headersAfter + b)%Z
        | None => None
        end
      else Some delay
  | Rejects after =>
      if (after <? delay)%Z then Some after else Some delay
  | Hangs => Some delay
  end.

End Timing.

(* ===================================================================== *)
(** ** Notions used to state what the clients do                          *)
(* ===================================================================== *)

Module Notions.
Import JS Types Wire Client.

(** A string is well formed when every surrogate code unit is part of a
    pair: a high surrogate directly followed by a low one. *)
Fixpoint wellFormed (s : jsstring) : bool :=
  match s with
  | [] => true
  | c :: rest =>
      if isHighSurrogate c then
        match rest with
        | d :: rest' => isLowSurrogate d && wellFormed rest'
        | [] => false
        end
      else negb (isLowSurrogate c) && wellFormed rest
  end.

(** The pieces of a string between the occurrences of [sep]. *)
Fixpoint splitOn (sep : N) (s : jsstring) : list jsstring :=
  match s with
  | [] => [[]]
  | c :: rest =>
      if N.eqb c sep then [] :: splitOn sep rest
      else match splitOn sep rest with
           | piece :: more => (c :: piece) :: more
           | [] => [[c]]
           end
  end.

(** [name=value] read back: the text before the first [=] and the text
    after it. *)
Fixpoint parsePair (s : jsstring) : jsstring * jsstring :=
  match s with
  | [] => ([], [])
  | c :: rest =>
      if N.eqb c 61 then ([], rest)
      else let (k, v) := parsePair rest in (c :: k, v)
  end.

(** A query string read back as its [name=value] pairs, separated by [&]. *)
Definition parseQuery (q : jsstring) : list (jsstring * jsstring) :=
  match q with
  | [] => []
  | _ => map parsePair (splitOn 38 q)
  end.

(** A parameter that is set when its value is defined. *)
Definition definedParam (k : string) (v : option jsstring)
  : list (jsstring * jsstring) :=
  match v with
  | Some s => [(lit k, s)]
  | None => []
  end.

(** Parameters as they stand in a query string: names and values
    form-encoded. *)
Definition encodedParams (ps : list (jsstring * jsstring))
  : list (jsstring * jsstring) :=
  map (fun kv => (formEncode (fst kv), formEncode (snd kv))) ps.

(** A character that separates neither parameters nor a name from its
    value: not [&], not [=]. *)
Definition plain (c : N) : Prop := c <> 38%N /\ c <> 61%N.

(** The characters that end the path of a URL: [?] and [#]. *)
Definition endsPath (c : N) : bool := N.eqb c 63 || N.eqb c 35.

(** The two headers [buildHeaders] starts from. *)
Definition defaultHeaders : Record_ jsstring :=
  [(lit "Content-Type", lit "application/json");
   (lit "Accept", lit "application/json")].

(** An error body without usable [error] and [detail] members: not an
    object (and not [null]), or an object in which both are absent or
    [null]. *)
Definition noErrorPayload (body : Json) : bool :=
  match body with
  | JNull => false
  | JObject fields =>
      match lookup (lit "error") fields, lookup (lit "detail") fields with
      | (None | Some JNull), (None | Some JNull) => true
      | _, _ => false
      end
  | _ => true
  end.

(** An operation handed to [callApi] that never posts: one [get], or a
    throw before it. *)
Inductive GetOrThrow (http : SdkClient.HttpClient)
  : IO SdkClient.HttpResponse -> Prop :=
| reads path options : GetOrThrow http (SdkClient.get http path options)
| throws_before e : GetOrThrow http (throw e).

(** The thrown values [callApi] returns with a status of their own. *)
Definition carriesStatus (e : Thrown) (s : Z) : Prop :=
  (exists message body, e = ThrownHttpError message body s) \/
  (exists code message, e = ThrownAumosError code message (Some s)).

(** Concrete inputs. *)
Definition astralName : jsstring := [55357%N; 56832%N].

Definition customHeaders : AgentVerticalClientConfig :=
  {| baseUrl := lit "http://localhost:8093";
     timeoutMs := Some 1000%Z;
     headers := Some [(lit "Accept", lit "text/plain");
                      (lit "X-Tenant", lit "acme")] |}.

Definition bothOptions : TemplatesOptions :=
  {| to_domain := Some (lit "health&care=1"); to_limit := Some (integer 5) |}.

Definition emptyBody404 : Response :=
  {| ok := false; status := 404; json := Return (JArray []) |}.

Definition nullBody500 : Response :=
  {| ok := false; status := 500; json := Return JNull |}.

Definition unavailable : Thrown :=
  ThrownAumosError (lit "UNAVAILABLE") (lit "try later") (Some 503%Z).

Definition applyContractReview : TemplateConfig :=
  {| template_name := lit "contract_review";
     parameter_overrides := None;
     validate_before_apply := Some true |}.

End Notions.

(* ===================================================================== *)
(** * Properties                                                          *)
(* ===================================================================== *)

Unset Implicit Arguments.

(** ** Percent-encoding and path segments *)

Module UrlFacts.
Import JS Url.

Lemma jsstring_eqb_eq a b : jsstring_eqb a b = true <-> a = b.
Proof.
  revert b. induction a as [| x a IH]; intros [| y b]; simpl;
    try (split; [discriminate | discriminate]); [tauto |].
  rewrite andb_true_iff, N.eqb_eq, IH. split.
  - intros [-> ->]. reflexivity.
  - intros [= -> ->]. tauto.
Qed.

Lemma jsstring_eqb_refl a : jsstring_eqb a a = true.
Proof. apply jsstring_eqb_eq. reflexivity. Qed.

Lemma uriUnescaped_not_delimiter c :
  uriUnescaped c = true -> delimiter c = false.
Proof.
  intros H. destruct (delimiter c) eqn:D; [exfalso | reflexivity].
  unfold delimiter in D.
  repeat (apply orb_prop in D; destruct D as [D | D]);
    apply N.eqb_eq in D; subst c; vm_compute in H; discriminate.
Qed.

Lemma hexDigit_not_delimiter d : delimiter (hexDigit d) = false.
Proof.
  unfold hexDigit, delimiter.
  destruct (N.ltb_spec d 10).
  - destruct (N.eqb_spec (48 + d) 47), (N.eqb_spec (48 + d) 63),
      (N.eqb_spec (48 + d) 35); simpl; try reflexivity; lia.
  - destruct (N.eqb_spec (55 + d) 47), (N.eqb_spec (55 + d) 63),
      (N.eqb_spec (55 + d) 35); simpl; try reflexivity; lia.
Qed.

Lemma percent_not_delimiter o :
  Forall (fun c => delimiter c = false) (percent o).
Proof.
  unfold percent.
  repeat constructor; apply hexDigit_not_delimiter.
Qed.

Lemma percentEncode_not_delimiter cp :
  Forall (fun c => delimiter c = false) (percentEncode cp).
Proof.
  unfold percentEncode.
  induction (utf8 cp) as [| o os IH].
  - constructor.
  - change (Forall (fun c => delimiter c = false)
                   (percent o ++ List.concat (map percent os))).
    apply Forall_app. split; [apply percent_not_delimiter | exact IH].
Qed.

(** Whatever [encodeURIComponent] returns holds no [/], [?] or [#]. *)
Lemma encodeURIComponent_not_delimiter :
  forall n s r,
    (List.length s <= n)%nat ->
    encodeURIComponent s = Return r ->
    Forall (fun c => delimiter c = false) r.
Proof.
  induction n as [| n IH]; intros s r Hlen Henc.
  - destruct s; simpl in Hlen; [| lia].
    simpl in Henc. injection Henc as <-. constructor.
  - destruct s as [| c rest]; simpl in Henc.
    + injection Henc as <-. constructor.
    + simpl in Hlen.
      destruct (uriUnescaped c) eqn:U.
      * destruct (encodeURIComponent rest) as [r' |] eqn:E; simpl in Henc;
          [| discriminate].
        injection Henc as <-. constructor.
        -- apply uriUnescaped_not_delimiter; exact U.
        -- apply (IH rest); [lia | exact E].
      * destruct (isHighSurrogate c).
        -- destruct rest as [| d rest']; [discriminate |].
           destruct (isLowSurrogate d); [| discriminate].
           destruct (encodeURIComponent rest') as [r' |] eqn:E;
             simpl in Henc; [| discriminate].
           injection Henc as <-. apply Forall_app. split.
           ++ apply percentEncode_not_delimiter.
           ++ apply (IH rest'); [simpl in Hlen; lia | exact E].
        -- destruct (isLowSurrogate c); [discriminate |].
           destruct (encodeURIComponent rest) as [r' |] eqn:E;
             simpl in Henc; [| discriminate].
           injection Henc as <-. apply Forall_app. split.
           ++ apply percentEncode_not_delimiter.
           ++ apply (IH rest); [lia | exact E].
Qed.

Lemma encoded_not_delimiter s r :
  encodeURIComponent s = Return r ->
  Forall (fun c => delimiter c = false) r.
Proof.
  apply (encodeURIComponent_not_delimiter (List.length s)). lia.
Qed.

Lemma not_delimiter_not_slash c : delimiter c = false -> N.eqb c 47 = false.
Proof.
  unfold delimiter. intros H.
  apply orb_false_elim in H. destruct H as [H _].
  apply orb_false_elim in H. destruct H as [H _]. exact H.
Qed.

(** A run of characters without [/] is the last segment ... *)
Lemma segments_last seg :
  Forall (fun c => delimiter c = false) seg ->
  segments seg = [seg].
Proof.
  induction 1 as [| c seg Hc _ IH]; simpl; [reflexivity |].
  rewrite (not_delimiter_not_slash c Hc), IH. reflexivity.
Qed.

(** ... or, followed by [/], a segment of its own. *)
Lemma segments_inner seg rest :
  Forall (fun c => delimiter c = false) seg ->
  segments (seg ++ 47%N :: rest) = seg :: segments rest.
Proof.
  induction 1 as [| c seg Hc _ IH]; simpl; [reflexivity |].
  rewrite (not_delimiter_not_slash c Hc), IH. reflexivity.
Qed.

(** *** Dot segments *)

Lemma utf8_head cp :
  exists o rest,
    utf8 cp = o :: rest /\ ((o = cp /\ (cp < 128)%N) \/ (192 <= o)%N).
Proof.
  unfold utf8.
  destruct (N.ltb_spec cp 128); [eexists; eexists; split; [reflexivity | left; split; [reflexivity | assumption]] |].
  destruct (N.ltb cp 2048);
    [eexists; eexists; split; [reflexivity | right; apply N.le_add_r] |].
  destruct (N.ltb cp 65536); eexists; eexists;
    (split; [reflexivity | right; etransitivity; [| apply N.le_add_r]; lia]).
Qed.

(** What [encodeURIComponent] escapes never comes out as [%2E] or [%2e]:
    the octet 46 is the dot, which is left as it is. *)
Lemma percentEncode_not_dot cp :
  uriUnescaped cp = false \/ (65536 <= cp)%N ->
  exists a b r,
    percentEncode cp = 37%N :: a :: b :: r /\
    ~ (a = 50%N /\ (b = 69%N \/ b = 101%N)).
Proof.
  intros Hcp. unfold percentEncode.
  destruct (utf8_head cp) as (o & rest & -> & Ho).
  exists (hexDigit (o / 16)), (hexDigit (o mod 16)), (List.concat (map percent rest)).
  split; [reflexivity |].
  intros [Ha Hb].
  assert (Hmod : (o mod 16 < 16)%N) by (apply N.mod_lt; discriminate).
  pose proof (N.div_mod o 16 ltac:(discriminate)) as Hdm.
  assert (Hq : (o / 16 = 2)%N).
  { unfold hexDigit in Ha. destruct (N.ltb_spec (o / 16) 10); lia. }
  assert (Hr : (o mod 16 = 14)%N).
  { unfold hexDigit in Hb. destruct (N.ltb_spec (o mod 16) 10); lia. }
  assert (o = 46%N) by lia. subst o.
  destruct Ho as [[<- _] | Ho]; [| lia].
  destruct Hcp as [Hcp | Hcp]; [vm_compute in Hcp; discriminate Hcp | lia].
Qed.

(** The first step of [encodeURIComponent], read backwards. *)
Lemma encodeURIComponent_cons_inv c rest r :
  encodeURIComponent (c :: rest) = Return r ->
  (uriUnescaped c = true /\
   exists r', r = c :: r' /\ encodeURIComponent rest = Return r') \/
  (uriUnescaped c = false /\
   exists a b r',
     r = 37%N :: a :: b :: r' /\ ~ (a = 50%N /\ (b = 69%N \/ b = 101%N))).
Proof.
  simpl. destruct (uriUnescaped c) eqn:U.
  - destruct (encodeURIComponent rest) as [r' |]; simpl; [| discriminate].
    intros [= <-]. left. eauto.
  - intros H. right. split; [reflexivity |].
    destruct (isHighSurrogate c).
    + destruct rest as [| d rest']; [discriminate |].
      destruct (isLowSurrogate d); [| discriminate].
      destruct (encodeURIComponent rest') as [r' |]; simpl in H; [| discriminate].
      injection H as <-.
      destruct (percentEncode_not_dot (codePoint c d)) as (a & b & q & -> & Hn).
      { right. unfold codePoint. lia. }
      exists a, b, (q ++ r'). split; [reflexivity | exact Hn].
    + destruct (isLowSurrogate c); [discriminate |].
      destruct (encodeURIComponent rest) as [r' |]; simpl in H; [| discriminate].
      injection H as <-.
      destruct (percentEncode_not_dot c (or_introl U)) as (a & b & q & -> & Hn).
      exists a, b, (q ++ r'). split; [reflexivity | exact Hn].
Qed.

Lemma encoded_nil s : encodeURIComponent s = Return [] -> s = [].
Proof.
  destruct s as [| c rest]; [reflexivity |]. intros H.
  apply encodeURIComponent_cons_inv in H.
  destruct H as [[_ (r' & E & _)] | [_ (a & b & r' & E & _)]]; discriminate E.
Qed.

Lemma encoded_dot s r :
  encodeURIComponent s = Return (46%N :: r) ->
  exists s', s = 46%N :: s' /\ encodeURIComponent s' = Return r.
Proof.
  destruct s as [| c rest]; [discriminate |]. intros H.
  apply encodeURIComponent_cons_inv in H.
  destruct H as [[_ (r' & E & H)] | [_ (a & b & r' & E & _)]];
    [| discriminate E].
  injection E as <- <-. eauto.
Qed.

Lemma encoded_percent_2E s x r :
  encodeURIComponent s = Return (37%N :: 50%N :: x :: r) ->
  x <> 69%N /\ x <> 101%N.
Proof.
  destruct s as [| c rest]; [discriminate |]. intros H.
  apply encodeURIComponent_cons_inv in H.
  destruct H as [[U (r' & E & _)] | [_ (a & b & r' & E & Hn)]].
  - injection E as <- _. vm_compute in U. discriminate U.
  - injection E as <- <- _. split; intros ->; apply Hn; auto.
Qed.

(** An encoded value is a dot segment only if the value itself is [.] or
    [..]. *)
Lemma encoded_dot_segment arg segment :
  encodeURIComponent arg = Return segment ->
  isSingleDot segment || isDoubleDot segment = true ->
  arg = lit "." \/ arg = lit "..".
Proof.
  intros Henc Hdot.
  assert (Hin : In segment (singleDotSegments ++ doubleDotSegments)).
  { apply orb_prop in Hdot.
    apply in_or_app.
    destruct Hdot as [H | H]; [left | right];
      apply existsb_exists in H; destruct H as (x & Hx & E);
      apply jsstring_eqb_eq in E; subst x; exact Hx. }
  vm_compute in Hin.
  repeat (destruct Hin as [<- | Hin]);
    try contradiction;
    repeat match goal with
           | H : encodeURIComponent _ = Return (46%N :: _) |- _ =>
               apply encoded_dot in H; destruct H as (? & -> & H)
           | H : encodeURIComponent _ = Return [] |- _ =>
               apply encoded_nil in H; subst
           end;
    try (apply encoded_percent_2E in Henc; destruct Henc; congruence);
    auto.
Qed.

Lemma encoded_not_dot_segment arg segment :
  encodeURIComponent arg = Return segment ->
  arg <> lit "." -> arg <> lit ".." ->
  isSingleDot segment = false /\ isDoubleDot segment = false.
Proof.
  intros Henc H1 H2.
  apply orb_false_elim.
  destruct (isSingleDot segment || isDoubleDot segment) eqn:E; [| reflexivity].
  destruct (encoded_dot_segment arg segment Henc E); contradiction.
Qed.

(** Segments none of which is a dot segment are kept as they are. *)
Lemma resolveDots_plain written :
  forall parsed,
    Forall (fun s => isSingleDot s = false /\ isDoubleDot s = false) written ->
    resolveDots parsed written = parsed ++ written.
Proof.
  induction written as [| s rest IH]; intros parsed H.
  - simpl. rewrite app_nil_r. reflexivity.
  - inversion H as [| ? ? [Hs Hd] Hrest]; subst.
    simpl. rewrite Hd, Hs. rewrite (IH _ Hrest).
    rewrite <- app_assoc. reflexivity.
Qed.

End UrlFacts.

(** ** The two adapters: [fetchJson] and [callApi] *)

Module AdapterFacts.
Import JS Types Wire Client Samples.

#[local] Arguments lit : simpl never.

Section FetchJson.
Import FetchClient.

Variable net : Net.
Variable u : jsstring.
Variable init : RequestInit.
Variable timeoutMs : Z.

Let req : Request :=
  {| url := u; method := init_method init;
     req_headers := init_headers init; req_body := init_body init |}.

(** One call of [fetchJson] puts exactly one request on the wire. *)
Lemma fetchJson_sent log :
  snd (fetchJson net u init timeoutMs log) = log ++ [req].
Proof.
  unfold fetchJson, try_catch, bind, fetch, lift, ret. simpl.
  destruct (net _) as [latency [resp | e] |]; simpl;
    try destruct (latency <? timeoutMs)%Z; simpl; try reflexivity.
  destruct (json resp) as [body |]; simpl; [| reflexivity].
  destruct (ok resp); simpl; [reflexivity |].
  destruct (getProp body "error"); simpl; [| reflexivity].
  destruct (getProp body "detail"); reflexivity.
Qed.

(** [fetchJson] never rejects. *)
Lemma fetchJson_fulfills log :
  exists r, fst (fetchJson net u init timeoutMs log) = Return r.
Proof.
  unfold fetchJson, try_catch, bind, fetch, lift, ret. simpl.
  destruct (net _) as [latency [resp | e] |]; simpl;
    try destruct (latency <? timeoutMs)%Z; simpl; eauto.
  destruct (json resp) as [body |]; simpl; eauto.
  destruct (ok resp); simpl; eauto.
  destruct (getProp body "error"); simpl; eauto.
  destruct (getProp body "detail"); simpl; eauto.
Qed.

(** The signal fired first, or nothing came back. *)
Lemma fetchJson_timeout log :
  net req = Silence \/
  (exists latency r, net req = Answer latency r /\ (timeoutMs <= latency)%Z) ->
  fst (fetchJson net u init timeoutMs log) =
  Return (OkFalse {| error := JString (lit "Network error");
                     detail := JString (message_of AbortError) |} 0).
Proof.
  unfold fetchJson, try_catch, bind, fetch, lift, ret. fold req.
  intros [H | (latency & r & H & Hlat)]; rewrite H; simpl.
  - reflexivity.
  - destruct (Z.ltb_spec latency timeoutMs); [lia | reflexivity].
Qed.

(** A reply that comes before the signal fires is handled as if it had
    come at once. *)
Lemma fetchJson_in_time log latency r :
  net req = Answer latency r ->
  (latency < timeoutMs)%Z ->
  (0 < timeoutMs)%Z ->
  fst (fetchJson net u init timeoutMs log)
  = fst (fetchJson (constNet 0 r) u init timeoutMs log).
Proof.
  unfold fetchJson, try_catch, bind, fetch, lift, ret, constNet. fold req.
  intros H Hlat Hpos. rewrite H. simpl.
  destruct (Z.ltb_spec latency timeoutMs); [| lia].
  destruct (Z.ltb_spec 0 timeoutMs); [| lia].
  reflexivity.
Qed.

(** The [fetch] promise rejected in time (network failure). *)
Lemma fetchJson_rejected log latency e :
  net req = Answer latency (Throw e) ->
  (latency < timeoutMs)%Z ->
  fst (fetchJson net u init timeoutMs log) =
  Return (OkFalse {| error := JString (lit "Network error");
                     detail := JString (message_of e) |} 0).
Proof.
  unfold fetchJson, try_catch, bind, fetch, lift, ret. fold req.
  intros H Hlat. rewrite H. simpl.
  destruct (Z.ltb_spec latency timeoutMs); [reflexivity | lia].
Qed.

(** A response arrived in time, but its body is not JSON: whatever the
    status of the response. *)
Lemma fetchJson_unparsable log latency resp e :
  net req = Answer latency (Return resp) ->
  (latency < timeoutMs)%Z ->
  json resp = Throw e ->
  fst (fetchJson net u init timeoutMs log) =
  Return (OkFalse {| error := JString (lit "Network error");
                     detail := JString (message_of e) |} 0).
Proof.
  unfold fetchJson, try_catch, bind, fetch, lift, ret. fold req.
  intros H Hlat Hjson. rewrite H. simpl.
  destruct (Z.ltb_spec latency timeoutMs); [| lia].
  rewrite Hjson. reflexivity.
Qed.

(** A successful response with a JSON body. *)
Lemma fetchJson_ok log latency resp body :
  net req = Answer latency (Return resp) ->
  (latency < timeoutMs)%Z ->
  ok resp = true ->
  json resp = Return body ->
  fst (fetchJson net u init timeoutMs log) = Return (OkTrue body).
Proof.
  unfold fetchJson, try_catch, bind, fetch, lift, ret. fold req.
  intros H Hlat Hok Hjson. rewrite H. simpl.
  destruct (Z.ltb_spec latency timeoutMs); [| lia].
  rewrite Hjson, Hok. reflexivity.
Qed.

(** An error response whose body is a JSON value other than [null]. *)
Lemma fetchJson_error_response log latency resp body :
  net req = Answer latency (Return resp) ->
  (latency < timeoutMs)%Z ->
  ok resp = false ->
  json resp = Return body ->
  body <> JNull ->
  exists err,
    fst (fetchJson net u init timeoutMs log) =
    Return (OkFalse err (status resp)).
Proof.
  unfold fetchJson, try_catch, bind, fetch, lift, ret. fold req.
  intros H Hlat Hok Hjson Hbody. rewrite H. simpl.
  destruct (Z.ltb_spec latency timeoutMs); [| lia].
  rewrite Hjson, Hok. simpl.
  destruct body; try congruence; simpl; eauto.
Qed.

End FetchJson.

Section CallApi.
Import SdkClient.

Variable operation : IO HttpResponse.


Lemma callApi_return log r :
  fst (operation log) = Return r ->
  fst (callApi operation log) = Return (OkTrue (data r)).
Proof.
  unfold callApi, try_catch, bind, ret.
  destruct (operation log) as [[r' | e] log']; simpl; [| discriminate].
  intros [= ->]. reflexivity.
Qed.

Lemma callApi_throw log e :
  fst (operation log) = Throw e ->
  fst (callApi operation log) = Return (caught e).
Proof.
  unfold callApi, try_catch, bind, ret.
  destruct (operation log) as [[r' | e'] log']; simpl; [discriminate |].
  intros [= ->]. reflexivity.
Qed.

(** [callApi] never rejects. *)
Lemma callApi_fulfills log :
  exists r, fst (callApi operation log) = Return r.
Proof.
  destruct (fst (operation log)) as [r | e] eqn:E.
  - rewrite (callApi_return log r E). eauto.
  - rewrite (callApi_throw log e E). eauto.
Qed.

End CallApi.

End AdapterFacts.

(** ** The eight operations *)

Module OperationFacts.
Import JS Types Wire Client Samples AdapterFacts.

#[local] Arguments lit : simpl never.

Ltac case_encoding :=
  match goal with
  | H : context [encodeURIComponent ?a] |- _ =>
      destruct (encodeURIComponent a) eqn:?; try discriminate H
  | |- context [encodeURIComponent ?a] =>
      destruct (encodeURIComponent a) eqn:?
  end.

Section Fetch.
Import FetchClient.

Variable config : AgentVerticalClientConfig.

(** Once the URL is built, an operation is one call of [fetchJson]; the
    URL and the options do not depend on the network. *)
Lemma fetch_invoke_encoded call :
  encodes call = true ->
  exists u init,
    forall net,
      invoke (createAgentVerticalClient net config) call
      = fetchJson net u init (timeoutOf config).
Proof.
  unfold encodes. intros H.
  destruct call; simpl in *; try case_encoding;
    do 2 eexists; intros net; reflexivity.
Qed.

(** When [encodeURIComponent] throws, the [async] method rejects before
    [fetchJson] is entered. *)
Lemma fetch_invoke_unencodable call :
  encodes call = false ->
  exists arg e,
    pathArgument call = Some arg /\
    encodeURIComponent arg = Throw e /\
    forall net, invoke (createAgentVerticalClient net config) call = throw e.
Proof.
  unfold encodes. intros H.
  destruct call; simpl in *; try discriminate H; case_encoding;
    do 2 eexists; repeat split; eauto.
Qed.

Variable net : Net.

Let client := createAgentVerticalClient net config.

Lemma fetch_invoke_fulfills call log :
  encodes call = true ->
  exists r, fst (invoke client call log) = Return r.
Proof.
  intros H. destruct (fetch_invoke_encoded call H) as (u & init & Hinv).
  subst client. rewrite Hinv. apply fetchJson_fulfills.
Qed.


End Fetch.

Section Sdk.
Import SdkClient.

Variable createHttpClient : HttpClientConfig -> HttpClient.
Variable config : AgentVerticalClientConfig.

Let http := createHttpClient (httpClientConfig config).
Let client := createAgentVerticalClient createHttpClient config.

(** Every operation is [callApi] around at most one use of the
    [HttpClient]. *)
Lemma sdk_invoke_single call :
  exists operation,
    SingleRequest http operation /\ invoke client call = callApi operation.
Proof.
  destruct call; simpl;
    try (eexists; split; [| reflexivity]; constructor);
    case_encoding;
    (eexists; split; [| reflexivity]; constructor).
Qed.

(** The operations of this client never reject. *)
Lemma sdk_invoke_fulfills call log :
  exists r, fst (invoke client call log) = Return r.
Proof.
  destruct (sdk_invoke_single call) as (operation & _ & ->).
  apply callApi_fulfills.
Qed.

(** On a transport whose every request throws [e], an operation that
    reaches the transport returns the envelope of [e]. *)
Lemma sdk_invoke_throw call log e :
  encodes call = true ->
  alwaysThrows http e ->
  fst (invoke client call log) = Return (caught e).
Proof.
  unfold encodes. intros H [Hget Hpost].
  destruct call; simpl in *; try case_encoding;
    apply callApi_throw; unfold bind, lift; simpl; auto.
Qed.

Lemma sdk_invoke_return call log r :
  encodes call = true ->
  alwaysReturns http r ->
  fst (invoke client call log) = Return (OkTrue (data r)).
Proof.
  unfold encodes. intros H [Hget Hpost].
  destruct call; simpl in *; try case_encoding;
    apply callApi_return; unfold bind, lift; simpl; auto.
Qed.

End Sdk.

End OperationFacts.

(** ** The envelope, the status and the transport *)

Module EnvelopeSpec.
Import JS Types Wire Client Samples AdapterFacts OperationFacts.

#[local] Arguments lit : simpl never.

(** The request an operation of the fetch-based client sent identifies the
    call of [fetchJson] it made. *)
Lemma fetch_invoke_request net config call log req :
  snd (invoke (FetchClient.createAgentVerticalClient net config) call log)
  = log ++ [req] ->
  exists u init,
    (forall net',
        invoke (FetchClient.createAgentVerticalClient net' config) call
        = FetchClient.fetchJson net' u init (FetchClient.timeoutOf config)) /\
    req = {| url := u; method := FetchClient.init_method init;
             req_headers := FetchClient.init_headers init;
             req_body := FetchClient.init_body init |}.
Proof.
  intros H. destruct (encodes call) eqn:E.
  - destruct (fetch_invoke_encoded config call E) as (u & init & Hinv).
    exists u, init. split; [exact Hinv |].
    rewrite Hinv, fetchJson_sent in H.
    apply app_inv_head in H. injection H as <-. reflexivity.
  - destruct (fetch_invoke_unencodable config call E)
      as (arg & e & _ & _ & Hinv).
    rewrite Hinv in H. simpl in H.
    apply (f_equal (@List.length _)) in H.
    rewrite length_app in H. simpl in H. lia.
Qed.

Lemma fetchJson_transportFailure net u init timeout log :
  transportFailure
    (net {| url := u; method := FetchClient.init_method init;
            req_headers := FetchClient.init_headers init;
            req_body := FetchClient.init_body init |}) timeout ->
  exists detail,
    fst (FetchClient.fetchJson net u init timeout log) =
    Return (OkFalse {| error := JString (lit "Network error");
                       detail := detail |} 0).
Proof.
  intros H.
  destruct (net _) as [latency r |] eqn:E; simpl in H.
  - destruct (Z.ltb_spec latency timeout) as [Hlt | Hge].
    + destruct H as [H | [e ->]]; [lia |].
      eexists. apply (fetchJson_rejected net u init timeout log latency e E Hlt).
    + eexists. apply fetchJson_timeout. right. eauto.
  - eexists. apply fetchJson_timeout. left. exact E.
Qed.

(** C1, at the input where the code departs from it: in the fetch-based
    client the URL is built before [fetchJson] and its [try] are entered,
    so for a template name that [encodeURIComponent] refuses (a lone
    surrogate) the promise returned by [getTemplate] rejects with the
    URIError instead of fulfilling with an envelope, and no request is
    sent. *)
Theorem fetch_getTemplate_rejects_lone_surrogate :
  forall (net : Net) (config : AgentVerticalClientConfig),
    result (getTemplate (FetchClient.createAgentVerticalClient net config)
                        loneSurrogate) = Throw URIError /\
    sent (getTemplate (FetchClient.createAgentVerticalClient net config)
                      loneSurrogate) = [].
Proof.
  intros net config. split; reflexivity.
Qed.



End EnvelopeSpec.

(** ** What the status of a failure says about its cause *)

Module StatusSpec.
Import JS Types Wire Client Samples AdapterFacts OperationFacts EnvelopeSpec.

#[local] Arguments lit : simpl never.

(** C3 as stated fails in both directions.  In the sdk-core-based client
    an exception that is neither a timeout nor a network error is returned
    with status 0; in the fetch-based client a 500 response whose body is
    not JSON is returned with status 0 instead of 500. *)
Lemma status_zero_without_transport_failure :
  transportLayer boom = false /\
  result (listDomains
            (SdkClient.createAgentVerticalClient
               (fun _ => throwingHttpClient boom) localhost))
  = Return (OkFalse {| error := JString (lit "Unexpected error");
                       detail := JString (lit "boom") |} 0) /\
  status htmlError500 = 500%Z /\
  result (listDomains
            (FetchClient.createAgentVerticalClient
               (constNet 5 (Return htmlError500)) localhost))
  = Return (OkFalse {| error := JString (lit "Network error");
                       detail := JString (message_of SyntaxError) |} 0).
Proof.
  repeat split; reflexivity.
Qed.

(** C3, amended: status 0 follows from a transport-layer failure, and the
    HTTP status code is returned for an HttpError of sdk-core and, in the
    fetch-based client, for an error response whose body is a JSON value
    other than null.  (Status 0 is also what other exceptions get.) *)
Theorem failure_status_by_cause :
  forall (net : Net)
         (createHttpClient : SdkClient.HttpClientConfig -> SdkClient.HttpClient)
         (config : AgentVerticalClientConfig) (call : Call) (log : Log),
    let fetchClient := FetchClient.createAgentVerticalClient net config in
    let sdkClient := SdkClient.createAgentVerticalClient createHttpClient config in
    let http := createHttpClient (SdkClient.httpClientConfig config) in
    encodes call = true ->
    (forall e,
        transportLayer e = true ->
        SdkClient.alwaysThrows http e ->
        exists err, fst (invoke sdkClient call log) = Return (OkFalse err 0)) /\
    (forall message body statusCode,
        SdkClient.alwaysThrows http (ThrownHttpError message body statusCode) ->
        exists err,
          fst (invoke sdkClient call log) = Return (OkFalse err statusCode)) /\
    (exists req,
        snd (invoke fetchClient call log) = log ++ [req] /\
        (transportFailure (net req) (FetchClient.timeoutOf config) ->
         exists err, fst (invoke fetchClient call log) = Return (OkFalse err 0)) /\
        (forall latency resp body,
            net req = Answer latency (Return resp) ->
            (latency < FetchClient.timeoutOf config)%Z ->
            ok resp = false ->
            json resp = Return body ->
            body <> JNull ->
            exists err,
              fst (invoke fetchClient call log)
              = Return (OkFalse err (status resp)))).
Proof.
  intros net createHttpClient config call log fetchClient sdkClient http Henc.
  split; [| split].
  - intros e Htl Hthrows. subst sdkClient.
    rewrite (sdk_invoke_throw createHttpClient config call log _ Henc Hthrows).
    destruct e; try discriminate Htl; simpl; eauto.
  - intros message body statusCode Hthrows. subst sdkClient.
    rewrite (sdk_invoke_throw createHttpClient config call log _ Henc Hthrows).
    simpl. eauto.
  - destruct (fetch_invoke_encoded config call Henc) as (u & init & Hinv).
    subst fetchClient. rewrite Hinv.
    eexists. split; [apply fetchJson_sent |]. split.
    + intros Hfail.
      destruct (fetchJson_transportFailure net u init _ log Hfail) as (d & Hd).
      eexists. exact Hd.
    + intros latency resp body Hnet Hlat Hok Hjson Hbody.
      apply (fetchJson_error_response net u init _ log latency resp body
               Hnet Hlat Hok Hjson Hbody).
Qed.

Lemma failure_status_by_cause_witness :
  encodes (CallGetTemplate (lit "contract_review")) = true /\
  (exists err,
      fst (invoke (SdkClient.createAgentVerticalClient
                     (fun _ => throwingHttpClient
                                 (ThrownHttpError (lit "Not Found") None 404))
                     localhost)
                  (CallGetTemplate (lit "contract_review")) [])
      = Return (OkFalse err 404)) /\
  (exists err,
      fst (invoke (SdkClient.createAgentVerticalClient
                     (fun _ => throwingHttpClient
                                 (ThrownNetworkError (lit "ECONNREFUSED")))
                     localhost)
                  (CallGetTemplate (lit "contract_review")) [])
      = Return (OkFalse err 0)) /\
  (exists err,
      fst (invoke (FetchClient.createAgentVerticalClient
                     (constNet 5 (Return jsonError404)) localhost)
                  (CallGetTemplate (lit "contract_review")) [])
      = Return (OkFalse err 404)).
Proof.
  split; [reflexivity |].
  split; [| split].
  - destruct (failure_status_by_cause
                silentNet
                (fun _ => throwingHttpClient
                            (ThrownHttpError (lit "Not Found") None 404))
                localhost (CallGetTemplate (lit "contract_review")) []
                eq_refl) as (_ & H & _).
    apply (H (lit "Not Found") None 404%Z).
    split; intros; reflexivity.
  - destruct (failure_status_by_cause
                silentNet
                (fun _ => throwingHttpClient
                            (ThrownNetworkError (lit "ECONNREFUSED")))
                localhost (CallGetTemplate (lit "contract_review")) []
                eq_refl) as (H & _ & _).
    apply (H (ThrownNetworkError (lit "ECONNREFUSED"))); [reflexivity |].
    split; intros; reflexivity.
  - destruct (failure_status_by_cause
                (constNet 5 (Return jsonError404))
                (fun _ => throwingHttpClient boom)
                localhost (CallGetTemplate (lit "contract_review")) []
                eq_refl) as (_ & _ & req & _ & _ & H).
    apply (H 5%Z jsonError404
             (JObject [(lit "error", JString (lit "Not found"));
                       (lit "detail", JString (lit "no such template"))]));
      [reflexivity | reflexivity | reflexivity | reflexivity | discriminate].
Defined.

(** C8, at the input where the code departs from it.  Without
    [timeoutMs] every operation of the fetch-based client is [fetchJson]
    with a timeout of 30000 ms, but [fetchJson] clears its timer as soon as
    the response is there and then waits for the body without any bound:
    when the response comes within the 30000 ms and its body never comes
    to its end, the promise never settles, so the operation does not
    resolve to a failure envelope when the timeout elapses. *)
Theorem default_timeout_does_not_bound_body :
  forall (base : jsstring) (extra : option (Record_ jsstring))
         (call : Call) (headersAfter : Z),
    let config := {| baseUrl := base; timeoutMs := None; headers := extra |} in
    encodes call = true ->
    (0 <= headersAfter < 30000)%Z ->
    FetchClient.timeoutOf config = 30000%Z /\
    (exists u init,
        forall net,
          invoke (FetchClient.createAgentVerticalClient net config) call
          = FetchClient.fetchJson net u init (FetchClient.timeoutOf config)) /\
    Timing.fetchJson_settles (FetchClient.timeoutOf config)
                             (Timing.Responds headersAfter None)
    = None.
Proof.
  intros base extra call headersAfter config Henc Hin.
  split; [reflexivity |].
  split; [apply (fetch_invoke_encoded config call Henc) |].
  unfold Timing.fetchJson_settles.
  change (Timing.setTimeout_delay (FetchClient.timeoutOf config)) with 30000%Z.
  cbv zeta.
  destruct (Z.ltb_spec headersAfter 30000); [reflexivity | lia].
Qed.

Lemma default_timeout_does_not_bound_body_witness :
  FetchClient.timeoutOf localhost = 30000%Z /\
  (exists u init,
      forall net,
        invoke (FetchClient.createAgentVerticalClient net localhost)
               CallListDomains
        = FetchClient.fetchJson net u init (FetchClient.timeoutOf localhost)) /\
  Timing.fetchJson_settles (FetchClient.timeoutOf localhost)
                           (Timing.Responds 100 None)
  = None.
Proof.
  apply (default_timeout_does_not_bound_body
           (lit "http://localhost:8093") None CallListDomains 100%Z);
    [reflexivity | lia].
Defined.

End StatusSpec.

(** ** The requests the operations make *)

Module RequestSpec.
Import JS Types Wire Client Url Samples.
Import UrlFacts AdapterFacts OperationFacts EnvelopeSpec.

#[local] Arguments lit : simpl never.

(** C9: the fetch-based client parses the body before it looks at the
    status, so a response whose body is not valid JSON, whatever its
    status, yields the "Network error" envelope with status 0, the detail
    being the message of the parse error. *)
Theorem unparsable_body_is_network_error :
  forall (net : Net) (config : AgentVerticalClientConfig) (call : Call)
         (log : Log) (req : Request) (latency : Z) (resp : Response)
         (e : Thrown),
    snd (invoke (FetchClient.createAgentVerticalClient net config) call log)
    = log ++ [req] ->
    net req = Answer latency (Return resp) ->
    (latency < FetchClient.timeoutOf config)%Z ->
    json resp = Throw e ->
    fst (invoke (FetchClient.createAgentVerticalClient net config) call log)
    = Return (OkFalse {| error := JString (lit "Network error");
                         detail := JString (message_of e) |} 0).
Proof.
  intros net config call log req latency resp e Hsent Hnet Hlat Hjson.
  destruct (fetch_invoke_request net config call log req Hsent)
    as (u & init & Hinv & ->).
  rewrite Hinv.
  apply (fetchJson_unparsable net u init _ log latency resp e Hnet Hlat Hjson).
Qed.

Lemma unparsable_body_is_network_error_witness :
  status htmlError500 = 500%Z /\
  fst (invoke (FetchClient.createAgentVerticalClient
                 (constNet 5 (Return htmlError500)) localhost)
              (CallGetDomainConfig (lit "healthcare")) [])
  = Return (OkFalse {| error := JString (lit "Network error");
                       detail := JString (message_of SyntaxError) |} 0).
Proof.
  split; [reflexivity |].
  apply (unparsable_body_is_network_error
           (constNet 5 (Return htmlError500)) localhost
           (CallGetDomainConfig (lit "healthcare")) []
           {| url := lit "http://localhost:8093/vertical/domains/healthcare/config";
              method := GET;
              req_headers := FetchClient.buildHeaders None;
              req_body := None |}
           5%Z htmlError500 SyntaxError);
    reflexivity.
Defined.

(** C4 as stated fails: both clients ask for the validation with GET, and
    under the prefix [/vertical]. *)
Lemma validateTemplate_sends_GET :
  sent (validateTemplate
          (FetchClient.createAgentVerticalClient silentNet localhost)
          (lit "contract_review"))
  = [{| url := lit "http://localhost:8093/vertical/templates/contract_review/validate";
        method := GET;
        req_headers := [(lit "Content-Type", lit "application/json");
                        (lit "Accept", lit "application/json")];
        req_body := None |}] /\
  map method
      (sent (validateTemplate
               (SdkClient.createAgentVerticalClient
                  recordingHttpClient localhost)
               (lit "contract_review")))
  = [GET].
Proof.
  split; reflexivity.
Qed.

(** C4, amended: [validateTemplate] asks for
    [GET {baseUrl}/vertical/templates/{encoded name}/validate], and on
    success hands the response body to the caller as it came: a
    TemplateValidationResult when the server sent one. *)
Theorem validateTemplate_request :
  forall (net : Net)
         (createHttpClient : SdkClient.HttpClientConfig -> SdkClient.HttpClient)
         (config : AgentVerticalClientConfig)
         (templateName name : jsstring) (log : Log),
    let fetchClient := FetchClient.createAgentVerticalClient net config in
    let sdkClient := SdkClient.createAgentVerticalClient createHttpClient config in
    let http := createHttpClient (SdkClient.httpClientConfig config) in
    let path := lit "/vertical/templates/" ++ name ++ lit "/validate" in
    let req := {| url := baseUrl config ++ path;
                  method := GET;
                  req_headers := FetchClient.buildHeaders (headers config);
                  req_body := None |} in
    encodeURIComponent templateName = Return name ->
    snd (validateTemplate fetchClient templateName log) = log ++ [req] /\
    validateTemplate sdkClient templateName
    = SdkClient.callApi (SdkClient.get http path None) /\
    (forall latency resp (result : TemplateValidationResult),
        net req = Answer latency (Return resp) ->
        (latency < FetchClient.timeoutOf config)%Z ->
        ok resp = true ->
        json resp = Return (TemplateValidationResult_toJson result) ->
        fst (validateTemplate fetchClient templateName log)
        = Return (OkTrue (TemplateValidationResult_toJson result))) /\
    (forall status (result : TemplateValidationResult),
        fst (SdkClient.get http path None log)
        = Return {| SdkClient.data := TemplateValidationResult_toJson result;
                    SdkClient.hr_status := status |} ->
        fst (validateTemplate sdkClient templateName log)
        = Return (OkTrue (TemplateValidationResult_toJson result))).
Proof.
  intros net createHttpClient config templateName name log
         fetchClient sdkClient http path req Henc.
  assert (Hfetch :
            validateTemplate fetchClient templateName
            = FetchClient.fetchJson net (baseUrl config ++ path)
                {| FetchClient.init_method := GET;
                   FetchClient.init_headers := FetchClient.buildHeaders (headers config);
                   FetchClient.init_body := None |}
                (FetchClient.timeoutOf config)).
  { subst fetchClient. simpl. rewrite Henc. reflexivity. }
  assert (Hsdk :
            validateTemplate sdkClient templateName
            = SdkClient.callApi (SdkClient.get http path None)).
  { subst sdkClient. simpl. rewrite Henc. reflexivity. }
  split; [rewrite Hfetch; apply fetchJson_sent |].
  split; [exact Hsdk |].
  split.
  - intros latency resp result Hnet Hlat Hok Hjson. rewrite Hfetch.
    apply (fetchJson_ok net (baseUrl config ++ path)
             {| FetchClient.init_method := GET;
                FetchClient.init_headers := FetchClient.buildHeaders (headers config);
                FetchClient.init_body := None |}
             _ log latency resp _ Hnet Hlat Hok Hjson).
  - intros status result Hget. rewrite Hsdk.
    apply (callApi_return _ log _ Hget).
Qed.

Lemma validateTemplate_request_witness :
  encodeURIComponent (lit "contract review") = Return (lit "contract%20review") /\
  snd (validateTemplate
         (FetchClient.createAgentVerticalClient
            (constNet 5 (Return (ok200 (TemplateValidationResult_toJson validation))))
            localhost)
         (lit "contract review") [])
  = [] ++ [{| url := lit "http://localhost:8093/vertical/templates/contract%20review/validate";
              method := GET;
              req_headers := FetchClient.buildHeaders None;
              req_body := None |}] /\
  fst (validateTemplate
         (FetchClient.createAgentVerticalClient
            (constNet 5 (Return (ok200 (TemplateValidationResult_toJson validation))))
            localhost)
         (lit "contract review") [])
  = Return (OkTrue (TemplateValidationResult_toJson validation)).
Proof.
  split; [reflexivity |].
  destruct (validateTemplate_request
              (constNet 5 (Return (ok200 (TemplateValidationResult_toJson validation))))
              (fun _ => throwingHttpClient boom)
              localhost (lit "contract review") (lit "contract%20review") []
              eq_refl) as (Hsent & _ & Hok & _).
  split; [exact Hsent |].
  apply (Hok 5%Z (ok200 (TemplateValidationResult_toJson validation)) validation);
    reflexivity.
Defined.

(** The path a call with a path argument asks for: the encoded argument
    holds no [/], [?] or [#], so between the [/] of the path it is one
    piece, at the place the operation gives it. *)
Lemma encoded_argument_path :
  forall (net : Net)
         (createHttpClient : SdkClient.HttpClientConfig -> SdkClient.HttpClient)
         (config : AgentVerticalClientConfig)
         (call : Call) (arg segment : jsstring) (log : Log),
    let fetchClient := FetchClient.createAgentVerticalClient net config in
    let sdkClient := SdkClient.createAgentVerticalClient createHttpClient config in
    let http := createHttpClient (SdkClient.httpClientConfig config) in
    pathArgument call = Some arg ->
    encodeURIComponent arg = Return segment ->
    Forall (fun c => delimiter c = false) segment /\
    exists path,
      segments path = pathSegments call segment /\
      (exists req,
          snd (invoke fetchClient call log) = log ++ [req] /\
          url req = baseUrl config ++ path) /\
      invoke sdkClient call
      = SdkClient.callApi (SdkClient.get http path None).
Proof.
  intros net createHttpClient config call arg segment log
         fetchClient sdkClient http Harg Henc.
  pose proof (encoded_not_delimiter arg segment Henc) as Hsafe.
  split; [exact Hsafe |].
  assert (Hword : forall w rest,
             Forall (fun c => delimiter c = false) (lit w) ->
             segments (lit w ++ 47%N :: rest) = lit w :: segments rest).
  { intros w rest Hw. apply segments_inner. exact Hw. }
  destruct call; simpl in Harg; try discriminate Harg;
    injection Harg as ->.
  - (* validateTemplate *)
    exists (lit "/vertical/templates/" ++ segment ++ lit "/validate").
    split; [| split].
    + change (lit "/vertical/templates/" ++ segment ++ lit "/validate")
        with (lit "" ++ 47%N :: lit "vertical" ++ 47%N :: lit "templates"
                  ++ 47%N :: segment ++ 47%N :: lit "validate").
      rewrite !Hword by (vm_compute; repeat constructor).
      rewrite (segments_inner segment _ Hsafe).
      rewrite segments_last by (vm_compute; repeat constructor).
      reflexivity.
    + subst fetchClient. simpl. rewrite Henc. eexists. split.
      * apply (fetchJson_sent net _ _ _ log).
      * reflexivity.
    + subst sdkClient. simpl. rewrite Henc. reflexivity.
  - (* getDomainConfig *)
    exists (lit "/vertical/domains/" ++ segment ++ lit "/config").
    split; [| split].
    + change (lit "/vertical/domains/" ++ segment ++ lit "/config")
        with (lit "" ++ 47%N :: lit "vertical" ++ 47%N :: lit "domains"
                  ++ 47%N :: segment ++ 47%N :: lit "config").
      rewrite !Hword by (vm_compute; repeat constructor).
      rewrite (segments_inner segment _ Hsafe).
      rewrite segments_last by (vm_compute; repeat constructor).
      reflexivity.
    + subst fetchClient. simpl. rewrite Henc. eexists. split.
      * apply (fetchJson_sent net _ _ _ log).
      * reflexivity.
    + subst sdkClient. simpl. rewrite Henc. reflexivity.
  - (* getPromptPattern *)
    exists (lit "/vertical/domains/" ++ segment ++ lit "/rules").
    split; [| split].
    + change (lit "/vertical/domains/" ++ segment ++ lit "/rules")
        with (lit "" ++ 47%N :: lit "vertical" ++ 47%N :: lit "domains"
                  ++ 47%N :: segment ++ 47%N :: lit "rules").
      rewrite !Hword by (vm_compute; repeat constructor).
      rewrite (segments_inner segment _ Hsafe).
      rewrite segments_last by (vm_compute; repeat constructor).
      reflexivity.
    + subst fetchClient. simpl. rewrite Henc. eexists. split.
      * apply (fetchJson_sent net _ _ _ log).
      * reflexivity.
    + subst sdkClient. simpl. rewrite Henc. reflexivity.
  - (* getTemplate *)
    exists (lit "/vertical/templates/" ++ segment).
    split; [| split].
    + change (lit "/vertical/templates/" ++ segment)
        with (lit "" ++ 47%N :: lit "vertical" ++ 47%N :: lit "templates"
                  ++ 47%N :: segment).
      rewrite !Hword by (vm_compute; repeat constructor).
      rewrite (segments_last segment Hsafe).
      reflexivity.
    + subst fetchClient. simpl. rewrite Henc. eexists. split.
      * apply (fetchJson_sent net _ _ _ log).
      * reflexivity.
    + subst sdkClient. simpl. rewrite Henc. reflexivity.
Qed.

(** C10 as stated fails for two kinds of value.  [encodeURIComponent]
    leaves [..] as it is, so [validateTemplate] of [..] asks for
    [/vertical/templates/../validate], and the URL parser that [fetch]
    applies takes [..] as a double-dot segment: the request is made for
    [/vertical/validate], in whose path the value is no segment.  And for
    a value with a lone surrogate [encodeURIComponent] throws, so no
    request is made at all. *)
Lemma dot_dot_is_no_segment :
  encodeURIComponent (lit "..") = Return (lit "..") /\
  map url (sent (validateTemplate
                   (FetchClient.createAgentVerticalClient silentNet localhost)
                   (lit "..")))
  = [lit "http://localhost:8093/vertical/templates/../validate"] /\
  requestedSegments [] (lit "/vertical/templates/../validate")
  = [lit "vertical"; lit "validate"] /\
  encodeURIComponent loneSurrogate = Throw URIError /\
  sent (getTemplate
          (FetchClient.createAgentVerticalClient silentNet localhost)
          loneSurrogate)
  = [].
Proof.
  repeat split; reflexivity.
Qed.

(** C10, amended: for a template name or domain that can be encoded and
    is neither [.] nor [..], the four operations put [encodeURIComponent]
    of it in the path.  The encoded value holds no [/], [?] or [#] and is
    no dot segment, so it is exactly one segment of the path written, at
    the place the operation gives it, and the URL parser leaves every
    segment of that path where it is, whatever the segments of the base
    URL. *)
Theorem encoded_argument_is_one_segment :
  forall (net : Net)
         (createHttpClient : SdkClient.HttpClientConfig -> SdkClient.HttpClient)
         (config : AgentVerticalClientConfig)
         (call : Call) (arg segment : jsstring) (log : Log),
    let fetchClient := FetchClient.createAgentVerticalClient net config in
    let sdkClient := SdkClient.createAgentVerticalClient createHttpClient config in
    let http := createHttpClient (SdkClient.httpClientConfig config) in
    pathArgument call = Some arg ->
    encodeURIComponent arg = Return segment ->
    arg <> lit "." ->
    arg <> lit ".." ->
    Forall (fun c => delimiter c = false) segment /\
    isSingleDot segment = false /\
    isDoubleDot segment = false /\
    exists path,
      segments path = pathSegments call segment /\
      (forall base,
          requestedSegments base path = base ++ tl (pathSegments call segment)) /\
      (exists req,
          snd (invoke fetchClient call log) = log ++ [req] /\
          url req = baseUrl config ++ path) /\
      invoke sdkClient call
      = SdkClient.callApi (SdkClient.get http path None).
Proof.
  intros net createHttpClient config call arg segment log
         fetchClient sdkClient http Harg Henc Hdot Hdotdot.
  destruct (encoded_argument_path net createHttpClient config call arg segment
              log Harg Henc) as (Hsafe & path & Hsegs & Hfetch & Hsdk).
  destruct (encoded_not_dot_segment arg segment Henc Hdot Hdotdot)
    as [Hsingle Hdouble].
  split; [exact Hsafe |].
  split; [exact Hsingle |].
  split; [exact Hdouble |].
  exists path.
  split; [exact Hsegs |].
  split; [| split; [exact Hfetch | exact Hsdk]].
  intros base. unfold requestedSegments. rewrite Hsegs.
  apply resolveDots_plain.
  destruct call; simpl in Harg; try discriminate Harg; simpl;
    repeat constructor; try assumption; reflexivity.
Qed.

Lemma encoded_argument_is_one_segment_witness :
  pathArgument (CallGetPromptPattern (lit "health/care?x#y"))
  = Some (lit "health/care?x#y") /\
  encodeURIComponent (lit "health/care?x#y")
  = Return (lit "health%2Fcare%3Fx%23y") /\
  exists path,
    segments path
    = [lit ""; lit "vertical"; lit "domains"; lit "health%2Fcare%3Fx%23y"; lit "rules"] /\
    (forall base,
        requestedSegments base path
        = base ++ [lit "vertical"; lit "domains"; lit "health%2Fcare%3Fx%23y";
                   lit "rules"]) /\
    (exists req,
        snd (invoke (FetchClient.createAgentVerticalClient silentNet localhost)
                    (CallGetPromptPattern (lit "health/care?x#y")) [])
        = [] ++ [req] /\
        url req = lit "http://localhost:8093" ++ path) /\
    invoke (SdkClient.createAgentVerticalClient
              (fun _ => throwingHttpClient boom) localhost)
           (CallGetPromptPattern (lit "health/care?x#y"))
    = SdkClient.callApi
        (SdkClient.get (throwingHttpClient boom) path None).
Proof.
  split; [reflexivity |].
  split; [reflexivity |].
  exact (proj2 (proj2 (proj2
           (encoded_argument_is_one_segment
              silentNet (fun _ => throwingHttpClient boom) localhost
              (CallGetPromptPattern (lit "health/care?x#y"))
              (lit "health/care?x#y") (lit "health%2Fcare%3Fx%23y") []
              eq_refl eq_refl
              ltac:(discriminate) ltac:(discriminate))))).
Defined.

End RequestSpec.

(** ** The evaluation engine *)

Module EngineSpec.
Import Engine.

(** *** Literal search *)

Lemma starts_with_spec p t :
  starts_with p t = true <-> exists post, t = p ++ post.
Proof.
  revert t. induction p as [| a p IH]; intros t; simpl.
  - split; [intros _; exists t; reflexivity | reflexivity].
  - destruct t as [| b t].
    + split; [discriminate | intros [post H]; discriminate H].
    + rewrite andb_true_iff, Ascii.eqb_eq, IH. split.
      * intros [-> [post ->]]. exists post. reflexivity.
      * intros [post H]. injection H as -> ->. split; eauto.
Qed.

Lemma find_from_spec p t i :
  find_from p t i <> None <-> exists pre post, t = pre ++ p ++ post.
Proof.
  revert i. induction t as [| b t IH]; intros i; simpl.
  - destruct (starts_with p []) eqn:S.
    + split; [intros _ | discriminate].
      apply starts_with_spec in S. destruct S as [post S].
      exists [], post. exact S.
    + split; [intros H; exfalso; apply H; reflexivity |].
      intros (pre & post & H).
      destruct pre as [| x pre]; [| discriminate H].
      assert (starts_with p [] = true) as S'
          by (apply starts_with_spec; exists post; exact H).
      congruence.
  - destruct (starts_with p (b :: t)) eqn:S.
    + split; [intros _ | discriminate].
      apply starts_with_spec in S. destruct S as [post S].
      exists [], post. exact S.
    + rewrite IH. split.
      * intros (pre & post & ->). exists (b :: pre), post. reflexivity.
      * intros (pre & post & H).
        destruct pre as [| x pre].
        -- assert (starts_with p (b :: t) = true) as S'
               by (apply starts_with_spec; exists post; exact H).
           congruence.
        -- injection H as _ ->. eauto.
Qed.

Lemma literal_search_spec pat text :
  literal_search pat text <> None <-> contains_ci pat text.
Proof.
  unfold literal_search, contains_ci.
  rewrite <- (find_from_spec (casefold pat) (casefold text) 0).
  destruct (find_from (casefold pat) (casefold text) 0);
    split; intros H; congruence.
Qed.

Section Checker.

Variable regex_search : string -> string -> option Span.

Lemma search_spec rule text :
  search regex_search rule text <> None <-> found regex_search rule text.
Proof.
  unfold search, found. destruct (is_regex rule).
  - reflexivity.
  - apply literal_search_spec.
Qed.

Lemma triggered_spec rule text :
  triggered (match_ regex_search rule text) = true
  <-> found regex_search rule text.
Proof.
  rewrite <- search_spec. unfold match_. simpl.
  destruct (search regex_search rule text); split;
    congruence || discriminate.
Qed.

(** Every rule is evaluated, in order; nothing is skipped. *)
Lemma check_app rules1 rules2 text :
  check regex_search (rules1 ++ rules2) text
  = check regex_search rules1 text ++ check regex_search rules2 text.
Proof.
  induction rules1 as [| r rules1 IH]; simpl; [reflexivity |].
  destruct (is_violation r (match_ regex_search r text)); simpl;
    rewrite IH; reflexivity.
Qed.

Lemma check_In rules text v :
  In v (check regex_search rules text) <->
  exists r, In r rules /\
            is_violation r (match_ regex_search r text) = true /\
            v = violation_of r (match_ regex_search r text).
Proof.
  induction rules as [| r rules IH]; simpl.
  - split; [contradiction | intros (r & [] & _)].
  - destruct (is_violation r (match_ regex_search r text)) eqn:V; simpl;
      rewrite IH; split.
    + intros [<- | (r' & Hin & Hv & ->)]; eauto 6.
    + intros (r' & [<- | Hin] & Hv & ->); eauto 6.
    + intros (r' & Hin & Hv & ->); eauto 6.
    + intros (r' & [<- | Hin] & Hv & ->); [congruence | eauto 6].
Qed.

Lemma unique_rule_id rules r1 r2 :
  NoDup (map rule_id rules) ->
  In r1 rules -> In r2 rules -> rule_id r1 = rule_id r2 -> r1 = r2.
Proof.
  induction rules as [| r rules IH]; simpl; [contradiction |].
  intros Hnd [-> | H1] [-> | H2] Hid; inversion Hnd as [| ? ? Hnotin Hnd'];
    subst; try reflexivity.
  - exfalso. apply Hnotin. rewrite Hid. apply in_map. exact H2.
  - exfalso. apply Hnotin. rewrite <- Hid. apply in_map. exact H1.
  - apply IH; assumption.
Qed.

Lemma reports_spec rules rule text :
  NoDup (map rule_id rules) ->
  In rule rules ->
  reports (check regex_search rules text) rule
  <-> is_violation rule (match_ regex_search rule text) = true.
Proof.
  intros Hnd Hin. unfold reports. split.
  - intros (v & Hv & Hid). apply check_In in Hv.
    destruct Hv as (r & Hr & Hviol & ->). simpl in Hid.
    rewrite <- (unique_rule_id rules r rule Hnd Hr Hin Hid). exact Hviol.
  - intros Hviol. exists (violation_of rule (match_ regex_search rule text)).
    split; [| reflexivity].
    apply check_In. eauto.
Qed.

(** C5: for a rule of a rule set with unique ids, [check] reports a
    violation of a PROHIBITED_PHRASE or PROHIBITED_PATTERN rule exactly
    when its pattern is found in the text, and of a REQUIRED_DISCLAIMER
    or REQUIRED_PATTERN rule exactly when its pattern is not found; the
    pattern being a literal (case-insensitive containment) or a regex. *)
Theorem check_polarity :
  forall (rules : list ComplianceRule) (rule : ComplianceRule) (text : string),
    NoDup (map rule_id rules) ->
    In rule rules ->
    match rule_type rule with
    | PROHIBITED_PHRASE | PROHIBITED_PATTERN =>
        reports (check regex_search rules text) rule
        <-> found regex_search rule text
    | REQUIRED_DISCLAIMER | REQUIRED_PATTERN =>
        reports (check regex_search rules text) rule
        <-> ~ found regex_search rule text
    end.
Proof.
  intros rules rule text Hnd Hin.
  pose proof (reports_spec rules rule text Hnd Hin) as Hrep.
  pose proof (triggered_spec rule text) as Htrig.
  unfold is_violation in Hrep.
  destruct (rule_type rule); rewrite Hrep;
    try exact Htrig;
    rewrite negb_true_iff, <- Htrig;
    destruct (triggered (match_ regex_search rule text));
    split; congruence.
Qed.

End Checker.

Lemma check_polarity_witness :
  NoDup (map rule_id sample_rules) /\
  In no_guarantee sample_rules /\
  In medical_disclaimer sample_rules /\
  (reports (check no_regex sample_rules sample_text) no_guarantee
   <-> found no_regex no_guarantee sample_text) /\
  (reports (check no_regex sample_rules sample_text) medical_disclaimer
   <-> ~ found no_regex medical_disclaimer sample_text).
Proof.
  assert (Hnd : NoDup (map rule_id sample_rules)).
  { repeat constructor; simpl; intuition discriminate. }
  assert (H1 : In no_guarantee sample_rules) by (simpl; auto).
  assert (H2 : In medical_disclaimer sample_rules) by (simpl; auto).
  split; [exact Hnd |].
  split; [exact H1 |].
  split; [exact H2 |].
  split.
  - exact (check_polarity no_regex sample_rules no_guarantee sample_text Hnd H1).
  - exact (check_polarity no_regex sample_rules medical_disclaimer sample_text Hnd H2).
Defined.

(** *** The checks a tier requires *)

Lemma required_checks_monotone t1 t2 :
  tier_rank t1 <= tier_rank t2 ->
  incl (required_checks t1) (required_checks t2).
Proof.
  intros Hle c Hc.
  destruct t1, t2; simpl in Hle; try lia;
    vm_compute in Hc |- *; intuition.
Qed.

(** C6: the checks required at DECISION_SUPPORT include those required at
    ADVISORY, which include those required at INFORMATIONAL. *)
Theorem required_checks_escalate :
  incl (required_checks INFORMATIONAL) (required_checks ADVISORY) /\
  incl (required_checks ADVISORY) (required_checks DECISION_SUPPORT).
Proof.
  split; apply required_checks_monotone; simpl; lia.
Qed.

(** *** The grounded fraction *)

Section Validator.

Variable sentences : string -> list string.
Variable is_disclaimer : string -> bool.
Variable tokens : string -> list string.
Variable stop_words : list string.
Variable overlap_threshold : Q.

(** C7: when no claim is extracted from the response, the result has no
    claim records and its grounded fraction is 1. *)
Theorem grounded_fraction_without_claims :
  forall (response : string) (knowledge_base : list (string * string)),
    extract_claims sentences is_disclaimer response = [] ->
    let r := validate sentences is_disclaimer tokens stop_words
                      overlap_threshold response knowledge_base in
    total_claims r = 0 /\ grounded_fraction r = 1%Q.
Proof.
  intros response knowledge_base Hnone. unfold validate. rewrite Hnone.
  split; reflexivity.
Qed.

End Validator.

Lemma grounded_fraction_without_claims_witness :
  extract_claims one_sentence (String.eqb disclaimer_only) disclaimer_only = [] /\
  grounded_fraction
    (validate one_sentence (String.eqb disclaimer_only) one_token []
              (3 # 5)%Q disclaimer_only sample_kb)
  = 1%Q.
Proof.
  split; [reflexivity |].
  exact (proj2 (grounded_fraction_without_claims
                  one_sentence (String.eqb disclaimer_only) one_token []
                  (3 # 5)%Q disclaimer_only sample_kb eq_refl)).
Defined.

End EngineSpec.

(** ** When an operation fulfils *)

Module FulfilmentFacts.
Import JS Types Wire Client Samples Notions.
Import AdapterFacts OperationFacts.

#[local] Arguments lit : simpl never.

Lemma uriUnescaped_small c : uriUnescaped c = true -> (c <= 126)%N.
Proof.
  unfold uriUnescaped, isAlnum, between. simpl. intros H.
  repeat (apply orb_prop in H; destruct H as [H | H]);
    try (apply andb_prop in H; destruct H as [_ H]; apply N.leb_le in H; lia);
    try (apply N.eqb_eq in H; subst c; lia);
    discriminate H.
Qed.

Lemma uriUnescaped_not_surrogate c :
  uriUnescaped c = true ->
  isHighSurrogate c = false /\ isLowSurrogate c = false.
Proof.
  intros H. apply uriUnescaped_small in H.
  unfold isHighSurrogate, isLowSurrogate, between.
  split; apply andb_false_iff; left; apply N.leb_gt; lia.
Qed.

(** [encodeURIComponent] returns on the well-formed strings and throws its
    URIError on the others. *)
Lemma encodeURIComponent_wellFormed :
  forall n s,
    (List.length s <= n)%nat ->
    if wellFormed s then exists r, encodeURIComponent s = Return r
    else encodeURIComponent s = Throw URIError.
Proof.
  induction n as [| n IH]; intros s Hlen.
  - destruct s; simpl in Hlen; [| lia]. simpl. eauto.
  - destruct s as [| c rest]; [simpl; eauto |].
    simpl in Hlen. simpl.
    destruct (uriUnescaped c) eqn:U.
    + destruct (uriUnescaped_not_surrogate c U) as [-> ->]. simpl.
      pose proof (IH rest ltac:(lia)) as H.
      destruct (wellFormed rest).
      * destruct H as [r ->]. simpl. eauto.
      * rewrite H. reflexivity.
    + destruct (isHighSurrogate c).
      * destruct rest as [| d rest']; [reflexivity |].
        destruct (isLowSurrogate d); simpl; [| reflexivity].
        pose proof (IH rest' ltac:(simpl in Hlen; lia)) as H.
        destruct (wellFormed rest').
        -- destruct H as [r ->]. simpl. eauto.
        -- rewrite H. reflexivity.
      * destruct (isLowSurrogate c); simpl; [reflexivity |].
        pose proof (IH rest ltac:(lia)) as H.
        destruct (wellFormed rest).
        -- destruct H as [r ->]. simpl. eauto.
        -- rewrite H. reflexivity.
Qed.

Lemma encodeURIComponent_returns s :
  wellFormed s = true -> exists r, encodeURIComponent s = Return r.
Proof.
  intros H. pose proof (encodeURIComponent_wellFormed (List.length s) s (le_n _)) as E.
  rewrite H in E. exact E.
Qed.

Lemma encodeURIComponent_throws s :
  wellFormed s = false -> encodeURIComponent s = Throw URIError.
Proof.
  intros H. pose proof (encodeURIComponent_wellFormed (List.length s) s (le_n _)) as E.
  rewrite H in E. exact E.
Qed.

Lemma encodes_wellFormed call arg :
  pathArgument call = Some arg -> encodes call = wellFormed arg.
Proof.
  intros H. unfold encodes. rewrite H.
  destruct (wellFormed arg) eqn:W.
  - destruct (encodeURIComponent_returns arg W) as [r ->]. reflexivity.
  - rewrite (encodeURIComponent_throws arg W). reflexivity.
Qed.

(** X1: an operation of the sdk-core-based client never rejects: whatever
    the transport does, and whatever the argument, the promise fulfils with
    an envelope. *)
Theorem sdk_client_never_rejects :
  forall (createHttpClient : SdkClient.HttpClientConfig -> SdkClient.HttpClient)
         (config : AgentVerticalClientConfig) (call : Call) (log : Log),
  exists envelope,
    fst (invoke (SdkClient.createAgentVerticalClient createHttpClient config)
                call log)
    = Return envelope.
Proof.
  intros createHttpClient config call log.
  apply (sdk_invoke_fulfills createHttpClient config call log).
Qed.

(** X2: an operation of the fetch-based client that takes a template
    name or a domain makes its request exactly when that string is well
    formed: then it calls [fetch] once; on a lone surrogate it rejects with
    the URIError of [encodeURIComponent] and sends nothing. *)
Theorem fetch_path_operation_rejects_ill_formed :
  forall (net : Net) (config : AgentVerticalClientConfig) (call : Call)
         (arg : jsstring) (log : Log),
    let p := invoke (FetchClient.createAgentVerticalClient net config) call log in
    pathArgument call = Some arg ->
    if wellFormed arg then exists req, snd p = log ++ [req]
    else fst p = Throw URIError /\ snd p = log.
Proof.
  intros net config call arg log p Harg. subst p.
  pose proof (encodes_wellFormed call arg Harg) as Henc.
  destruct (wellFormed arg) eqn:W.
  - destruct (fetch_invoke_encoded config call Henc) as (u & init & Hinv).
    rewrite Hinv. eexists. apply fetchJson_sent.
  - destruct (fetch_invoke_unencodable config call Henc)
      as (arg' & e & Harg' & He & Hinv).
    rewrite Harg in Harg'. injection Harg' as <-.
    rewrite (encodeURIComponent_throws arg W) in He. injection He as <-.
    rewrite Hinv. split; reflexivity.
Qed.

Lemma fetch_path_operation_rejects_ill_formed_witness :
  pathArgument (CallGetDomainConfig loneSurrogate) = Some loneSurrogate /\
  wellFormed loneSurrogate = false /\
  fst (invoke (FetchClient.createAgentVerticalClient silentNet localhost)
              (CallGetDomainConfig loneSurrogate) [])
  = Throw URIError /\
  snd (invoke (FetchClient.createAgentVerticalClient silentNet localhost)
              (CallGetDomainConfig loneSurrogate) [])
  = [].
Proof.
  split; [reflexivity |].
  split; [reflexivity |].
  exact (fetch_path_operation_rejects_ill_formed
           silentNet localhost (CallGetDomainConfig loneSurrogate)
           loneSurrogate [] eq_refl).
Defined.

End FulfilmentFacts.

(** ** What the envelopes of the fetch-based client say *)

Module FetchEnvelopeFacts.
Import JS Types Wire Client Samples Notions.
Import AdapterFacts OperationFacts EnvelopeSpec.

#[local] Arguments lit : simpl never.

(** An operation either rejects before sending, or is one call of
    [fetchJson] whose request is the one it sends. *)
Lemma fetch_invoke_cases net config call log :
  (exists e,
      invoke (FetchClient.createAgentVerticalClient net config) call = throw e) \/
  (exists u init,
      invoke (FetchClient.createAgentVerticalClient net config) call
      = FetchClient.fetchJson net u init (FetchClient.timeoutOf config) /\
      snd (invoke (FetchClient.createAgentVerticalClient net config) call log)
      = log ++ [{| url := u; method := FetchClient.init_method init;
                   req_headers := FetchClient.init_headers init;
                   req_body := FetchClient.init_body init |}]).
Proof.
  destruct (encodes call) eqn:E.
  - right. destruct (fetch_invoke_encoded config call E) as (u & init & Hinv).
    exists u, init. split; [apply Hinv |].
    rewrite Hinv. apply fetchJson_sent.
  - left. destruct (fetch_invoke_unencodable config call E)
      as (arg & e & _ & _ & Hinv).
    exists e. apply Hinv.
Qed.

(** The envelope of [fetchJson], case by case. *)
Lemma fetchJson_outcome net u init timeout log :
  let req := {| url := u; method := FetchClient.init_method init;
                req_headers := FetchClient.init_headers init;
                req_body := FetchClient.init_body init |} in
  let networkError e :=
    OkFalse {| error := JString (lit "Network error");
               detail := JString (message_of e) |} 0 in
  fst (FetchClient.fetchJson net u init timeout log)
  = Return
      match net req with
      | Silence => networkError FetchClient.AbortError
      | Answer latency r =>
          if (latency <? timeout)%Z then
            match r with
            | Throw e => networkError e
            | Return resp =>
                match json resp with
                | Throw e => networkError e
                | Return body =>
                    if ok resp then OkTrue body
                    else
                      match getProp body "error", getProp body "detail" with
                      | Return e, Return d =>
                          OkFalse
                            {| error := nullish e (JString (lit "Unknown error"));
                               detail := nullish d (JString (lit "")) |}
                            (status resp)
                      | Throw e, _ => networkError e
                      | _, Throw e => networkError e
                      end
                end
            end
          else networkError FetchClient.AbortError
      end.
Proof.
  intros req networkError. subst networkError.
  unfold FetchClient.fetchJson, try_catch, bind, FetchClient.fetch, lift, ret.
  fold req. simpl.
  destruct (net req) as [latency [resp | e] |]; simpl;
    try destruct (latency <? timeout)%Z; simpl; try reflexivity.
  destruct (json resp) as [body |]; simpl; [| reflexivity].
  destruct (ok resp); simpl; [reflexivity |].
  destruct (getProp body "error"); simpl; [| reflexivity].
  destruct (getProp body "detail"); reflexivity.
Qed.

(** X3: with a timeout that [setTimeout] takes as it is (from 1 to
    2^31 - 1 ms), an operation of the fetch-based client returns the
    success envelope with [body] exactly when the request it sent was
    answered before the timeout by an ok response whose body parses to
    [body]. *)
Theorem fetch_success_iff :
  forall (net : Net) (config : AgentVerticalClientConfig) (call : Call)
         (log : Log) (body : Json),
    let p := invoke (FetchClient.createAgentVerticalClient net config) call log in
    (1 <= FetchClient.timeoutOf config <= 2147483647)%Z ->
    fst p = Return (OkTrue body) <->
    exists req latency resp,
      snd p = log ++ [req] /\
      net req = Answer latency (Return resp) /\
      (latency < FetchClient.timeoutOf config)%Z /\
      ok resp = true /\
      json resp = Return body.
Proof.
  intros net config call log body p Hrange. subst p. split.
  - intros H.
    destruct (fetch_invoke_cases net config call log)
      as [[e Hinv] | (u & init & Hinv & Hsent)].
    + rewrite Hinv in H. discriminate H.
    + rewrite Hsent. rewrite Hinv, fetchJson_outcome in H. simpl in H.
      destruct (net _) as [latency [resp | e] |] eqn:Hnet;
        try discriminate H.
      * destruct (Z.ltb_spec latency (FetchClient.timeoutOf config));
          [| discriminate H].
        destruct (json resp) as [b |] eqn:Hjson; [| discriminate H].
        destruct (ok resp) eqn:Hok.
        -- injection H as ->. eauto 10.
        -- destruct (getProp b "error"), (getProp b "detail"); discriminate H.
      * destruct (latency <? FetchClient.timeoutOf config)%Z; discriminate H.
  - intros (req & latency & resp & Hsent & Hnet & Hlat & Hok & Hjson).
    destruct (fetch_invoke_request net config call log req Hsent)
      as (u & init & Hinv & ->).
    rewrite Hinv.
    apply (fetchJson_ok net u init _ log latency resp body Hnet Hlat Hok Hjson).
Qed.

Lemma fetch_success_iff_witness :
  (1 <= FetchClient.timeoutOf localhost <= 2147483647)%Z /\
  fst (invoke (FetchClient.createAgentVerticalClient
                 (constNet 5 (Return (ok200 JNull))) localhost)
              CallListDomains [])
  = Return (OkTrue JNull).
Proof.
  assert (Hrange : (1 <= FetchClient.timeoutOf localhost <= 2147483647)%Z)
    by (change (1 <= 30000 <= 2147483647)%Z; lia).
  split; [exact Hrange |].
  apply (proj2 (fetch_success_iff
                  (constNet 5 (Return (ok200 JNull))) localhost
                  CallListDomains [] JNull Hrange)).
  exists {| url := lit "http://localhost:8093/vertical/domains";
            method := GET;
            req_headers := FetchClient.buildHeaders None;
            req_body := None |}, 5%Z, (ok200 JNull).
  repeat split; reflexivity.
Defined.

(** X4: a failure envelope of the fetch-based client with a status other
    than 0 always carries the status of a response that did arrive: the
    request was answered before the timeout by a response that is not ok,
    has that status, and whose body parses to a JSON value other than
    null. *)
Theorem fetch_nonzero_status_is_a_response :
  forall (net : Net) (config : AgentVerticalClientConfig) (call : Call)
         (log : Log) (err : ApiError) (s : Z),
    let p := invoke (FetchClient.createAgentVerticalClient net config) call log in
    fst p = Return (OkFalse err s) ->
    s <> 0%Z ->
    exists req latency resp body,
      snd p = log ++ [req] /\
      net req = Answer latency (Return resp) /\
      (latency < FetchClient.timeoutOf config)%Z /\
      ok resp = false /\
      status resp = s /\
      json resp = Return body /\
      body <> JNull.
Proof.
  intros net config call log err s p H Hs. subst p.
  destruct (fetch_invoke_cases net config call log)
    as [[e Hinv] | (u & init & Hinv & Hsent)].
  - rewrite Hinv in H. discriminate H.
  - rewrite Hsent. rewrite Hinv, fetchJson_outcome in H. simpl in H.
    destruct (net _) as [latency [resp | e] |] eqn:Hnet.
    + destruct (Z.ltb_spec latency (FetchClient.timeoutOf config)).
      * destruct (json resp) as [b |] eqn:Hjson.
        -- destruct (ok resp) eqn:Hok; [discriminate H |].
           destruct b; simpl in H; injection H as _ <-;
             try congruence;
             (do 4 eexists; repeat split; eauto; discriminate).
        -- injection H as _ <-. congruence.
      * injection H as _ <-. congruence.
    + destruct (latency <? FetchClient.timeoutOf config)%Z;
        injection H as _ <-; congruence.
    + injection H as _ <-. congruence.
Qed.

Lemma fetch_nonzero_status_is_a_response_witness :
  fst (invoke (FetchClient.createAgentVerticalClient
                 (constNet 5 (Return jsonError404)) localhost)
              CallListDomains [])
  = Return (OkFalse {| error := JString (lit "Not found");
                       detail := JString (lit "no such template") |} 404) /\
  404%Z <> 0%Z /\
  exists req latency resp body,
    snd (invoke (FetchClient.createAgentVerticalClient
                   (constNet 5 (Return jsonError404)) localhost)
                CallListDomains [])
    = [] ++ [req] /\
    constNet 5 (Return jsonError404) req = Answer latency (Return resp) /\
    (latency < FetchClient.timeoutOf localhost)%Z /\
    ok resp = false /\
    status resp = 404%Z /\
    json resp = Return body /\
    body <> JNull.
Proof.
  assert (H404 : 404%Z <> 0%Z) by discriminate.
  split; [reflexivity |].
  split; [exact H404 |].
  exact (fetch_nonzero_status_is_a_response
           (constNet 5 (Return jsonError404)) localhost CallListDomains []
           {| error := JString (lit "Not found");
              detail := JString (lit "no such template") |} 404%Z
           eq_refl H404).
Defined.

(** X5: an error response whose body is the JSON value [null] is not
    returned with its status: reading [error] off [null] throws inside the
    [try], and the envelope is "Network error" with status 0. *)
Theorem fetch_null_error_body_is_network_error :
  forall (net : Net) (config : AgentVerticalClientConfig) (call : Call)
         (log : Log) (req : Request) (latency : Z) (resp : Response),
    let p := invoke (FetchClient.createAgentVerticalClient net config) call log in
    snd p = log ++ [req] ->
    net req = Answer latency (Return resp) ->
    (latency < FetchClient.timeoutOf config)%Z ->
    ok resp = false ->
    json resp = Return JNull ->
    exists message,
      fst p = Return (OkFalse {| error := JString (lit "Network error");
                                 detail := JString message |} 0).
Proof.
  intros net config call log req latency resp p Hsent Hnet Hlat Hok Hjson.
  subst p.
  destruct (fetch_invoke_request net config call log req Hsent)
    as (u & init & Hinv & ->).
  rewrite Hinv, fetchJson_outcome. simpl. rewrite Hnet.
  destruct (Z.ltb_spec latency (FetchClient.timeoutOf config)); [| lia].
  rewrite Hjson, Hok. simpl. eauto.
Qed.

Lemma fetch_null_error_body_is_network_error_witness :
  status nullBody500 = 500%Z /\
  exists message,
    fst (invoke (FetchClient.createAgentVerticalClient
                   (constNet 5 (Return nullBody500)) localhost)
                CallListDomains [])
    = Return (OkFalse {| error := JString (lit "Network error");
                         detail := JString message |} 0).
Proof.
  split; [reflexivity |].
  exact (fetch_null_error_body_is_network_error
           (constNet 5 (Return nullBody500)) localhost CallListDomains []
           {| url := lit "http://localhost:8093/vertical/domains";
              method := GET;
              req_headers := FetchClient.buildHeaders None;
              req_body := None |}
           5%Z nullBody500 eq_refl eq_refl eq_refl eq_refl eq_refl).
Defined.

(** X6: an error response whose body parses but holds no usable [error]
    and [detail] members (an array, a string, a number, a boolean, or an
    object in which both are absent or null) is returned with its status
    and the defaults "Unknown error" and the empty detail. *)
Theorem fetch_error_payload_defaults :
  forall (net : Net) (config : AgentVerticalClientConfig) (call : Call)
         (log : Log) (req : Request) (latency : Z) (resp : Response)
         (body : Json),
    let p := invoke (FetchClient.createAgentVerticalClient net config) call log in
    snd p = log ++ [req] ->
    net req = Answer latency (Return resp) ->
    (latency < FetchClient.timeoutOf config)%Z ->
    ok resp = false ->
    json resp = Return body ->
    noErrorPayload body = true ->
    fst p = Return (OkFalse {| error := JString (lit "Unknown error");
                               detail := JString (lit "") |} (status resp)).
Proof.
  intros net config call log req latency resp body p
         Hsent Hnet Hlat Hok Hjson Hnone.
  subst p.
  destruct (fetch_invoke_request net config call log req Hsent)
    as (u & init & Hinv & ->).
  rewrite Hinv, fetchJson_outcome. simpl. rewrite Hnet.
  destruct (Z.ltb_spec latency (FetchClient.timeoutOf config)); [| lia].
  rewrite Hjson, Hok.
  destruct body; simpl in Hnone; try discriminate Hnone; try reflexivity.
  simpl.
  destruct (lookup (lit "error") fields) as [[] |];
    destruct (lookup (lit "detail") fields) as [[] |];
    try discriminate Hnone; reflexivity.
Qed.

Lemma fetch_error_payload_defaults_witness :
  noErrorPayload (JArray []) = true /\
  fst (invoke (FetchClient.createAgentVerticalClient
                 (constNet 5 (Return emptyBody404)) localhost)
              CallListDomains [])
  = Return (OkFalse {| error := JString (lit "Unknown error");
                       detail := JString (lit "") |} 404).
Proof.
  split; [reflexivity |].
  exact (fetch_error_payload_defaults
           (constNet 5 (Return emptyBody404)) localhost CallListDomains []
           {| url := lit "http://localhost:8093/vertical/domains";
              method := GET;
              req_headers := FetchClient.buildHeaders None;
              req_body := None |}
           5%Z emptyBody404 (JArray [])
           eq_refl eq_refl eq_refl eq_refl eq_refl eq_refl).
Defined.

End FetchEnvelopeFacts.

(** ** What the envelopes of the sdk-core-based client say *)

Module SdkEnvelopeFacts.
Import JS Types Wire Client Samples Notions.
Import AdapterFacts OperationFacts.

#[local] Arguments lit : simpl never.

(** X7: a failure envelope of the sdk-core-based client with a status
    other than 0 always comes from a thrown value that carries that
    status: an HttpError with that statusCode, or an AumosError whose
    statusCode is defined.  Timeouts, network errors and every other
    exception give status 0. *)
Theorem sdk_nonzero_status_has_a_cause :
  forall (createHttpClient : SdkClient.HttpClientConfig -> SdkClient.HttpClient)
         (config : AgentVerticalClientConfig) (call : Call) (log : Log)
         (err : ApiError) (s : Z),
    let client := SdkClient.createAgentVerticalClient createHttpClient config in
    let http := createHttpClient (SdkClient.httpClientConfig config) in
    fst (invoke client call log) = Return (OkFalse err s) ->
    s <> 0%Z ->
    exists operation e,
      SdkClient.SingleRequest http operation /\
      invoke client call = SdkClient.callApi operation /\
      fst (operation log) = Throw e /\
      carriesStatus e s.
Proof.
  intros createHttpClient config call log err s client http H Hs.
  destruct (sdk_invoke_single createHttpClient config call)
    as (operation & Hsingle & Hinv).
  subst client. rewrite Hinv in H.
  destruct (fst (operation log)) as [r | e] eqn:Hop.
  - rewrite (callApi_return operation log r Hop) in H. discriminate H.
  - rewrite (callApi_throw operation log e Hop) in H.
    exists operation, e.
    split; [exact Hsingle |]. split; [exact Hinv |]. split; [exact Hop |].
    destruct e as [m b sc | m | m | c m [sc |] | n m | v]; simpl in H;
      injection H as _ <-; try congruence.
    + left. eauto.
    + right. eauto.
Qed.

Lemma sdk_nonzero_status_has_a_cause_witness :
  fst (invoke (SdkClient.createAgentVerticalClient
                 (fun _ => throwingHttpClient unavailable) localhost)
              CallListDomains [])
  = Return (OkFalse {| error := JString (lit "UNAVAILABLE");
                       detail := JString (lit "try later") |} 503) /\
  503%Z <> 0%Z /\
  exists operation e,
    SdkClient.SingleRequest (throwingHttpClient unavailable) operation /\
    invoke (SdkClient.createAgentVerticalClient
              (fun _ => throwingHttpClient unavailable) localhost)
           CallListDomains
    = SdkClient.callApi operation /\
    fst (operation []) = Throw e /\
    carriesStatus e 503.
Proof.
  assert (H503 : 503%Z <> 0%Z) by discriminate.
  split; [reflexivity |].
  split; [exact H503 |].
  exact (sdk_nonzero_status_has_a_cause
           (fun _ => throwingHttpClient unavailable) localhost
           CallListDomains []
           {| error := JString (lit "UNAVAILABLE");
              detail := JString (lit "try later") |} 503%Z eq_refl H503).
Defined.

End SdkEnvelopeFacts.

(** ** What the requests of the clients look like *)

Module RequestFacts.
Import JS Types Wire Client Url Samples Notions.
Import UrlFacts AdapterFacts OperationFacts EnvelopeSpec.

#[local] Arguments lit : simpl never.

Lemma log_not_extended (log : Log) (req : Request) : log <> log ++ [req].
Proof.
  intros H. apply (f_equal (@List.length _)) in H.
  rewrite length_app in H. simpl in H. lia.
Qed.

(** The method, headers and body of the request an operation of the
    fetch-based client sends. *)
Lemma fetch_request_shape net config call log req :
  snd (invoke (FetchClient.createAgentVerticalClient net config) call log)
  = log ++ [req] ->
  req_headers req = FetchClient.buildHeaders (headers config) /\
  match call with
  | CallApplyTemplate c =>
      method req = POST /\ req_body req = Some (TemplateConfig_toJson c)
  | _ => method req = GET /\ req_body req = None
  end.
Proof.
  intros H.
  destruct call; simpl in H; try case_encoding;
    unfold bind, lift in H; simpl in H;
    try (exfalso; exact (log_not_extended log req H));
    rewrite fetchJson_sent in H; apply app_inv_head in H;
    injection H as <-; repeat split; reflexivity.
Qed.

(** *** Objects: assignment, spread and lookup *)

Lemma lookup_absent {V} k (o : Record_ V) :
  ~ In k (map fst o) -> lookup k o = None.
Proof.
  induction o as [| [k' v] o IH]; simpl; [reflexivity |].
  intros H. rewrite IH by tauto.
  destruct (jsstring_eqb k k') eqn:E; [| reflexivity].
  apply jsstring_eqb_eq in E. subst. tauto.
Qed.

Lemma set_keys {V} k v (o : Record_ V) x :
  In x (map fst (set k v o)) <-> x = k \/ In x (map fst o).
Proof.
  induction o as [| [k' v'] o IH]; simpl.
  - intuition.
  - destruct (jsstring_eqb k k') eqn:E; simpl.
    + apply jsstring_eqb_eq in E. subst. intuition.
    + rewrite IH. intuition.
Qed.

Lemma set_unique {V} k v (o : Record_ V) :
  NoDup (map fst o) -> NoDup (map fst (set k v o)).
Proof.
  induction o as [| [k' v'] o IH]; simpl; intros H.
  - repeat constructor. simpl. tauto.
  - inversion H as [| ? ? Hnotin Hnd]; subst.
    destruct (jsstring_eqb k k') eqn:E; simpl.
    + apply jsstring_eqb_eq in E. subst. constructor; assumption.
    + constructor; [| apply IH; exact Hnd].
      rewrite set_keys. intros [-> | Hin]; [| tauto].
      rewrite jsstring_eqb_refl in E. discriminate E.
Qed.

(** Reading back after an assignment. *)
Lemma lookup_set {V} k k' v (o : Record_ V) :
  NoDup (map fst o) ->
  lookup k (set k' v o) = if jsstring_eqb k k' then Some v else lookup k o.
Proof.
  induction o as [| [k1 v1] o IH]; simpl; intros H.
  - reflexivity.
  - inversion H as [| ? ? Hnotin Hnd]; subst.
    destruct (jsstring_eqb k' k1) eqn:E1; simpl.
    + apply jsstring_eqb_eq in E1. subst k1.
      destruct (jsstring_eqb k k') eqn:E.
      * apply jsstring_eqb_eq in E. subst k'.
        rewrite (lookup_absent k o Hnotin). reflexivity.
      * destruct (lookup k o); reflexivity.
    + rewrite (IH Hnd).
      destruct (jsstring_eqb k k') eqn:E; [reflexivity |].
      reflexivity.
Qed.

(** Reading back after a spread: the later object wins. *)
Lemma lookup_spread {V} k (a b : Record_ V) :
  NoDup (map fst a) ->
  lookup k (spread a b)
  = match lookup k b with
    | Some v => Some v
    | None => lookup k a
    end.
Proof.
  unfold spread. revert a.
  induction b as [| [k1 v1] b IH]; intros a Ha; simpl; [reflexivity |].
  rewrite (IH _ (set_unique k1 v1 a Ha)).
  destruct (lookup k b); [reflexivity |].
  rewrite (lookup_set k k1 v1 a Ha).
  destruct (jsstring_eqb k k1); reflexivity.
Qed.

(** X8: the [headers] object an operation of the fetch-based client
    hands to [fetch] holds the configured extra headers, and
    [Content-Type: application/json] and [Accept: application/json] unless
    an extra header of exactly the same name replaces them: a property of
    that object, read by its exact name, is the configured one if there is
    one, and the default otherwise.  (Names that differ in case only are
    different properties of the object.) *)
Theorem fetch_headers_object :
  forall (config : AgentVerticalClientConfig) (call : Call) (name : jsstring),
    encodes call = true ->
    exists u init,
      (forall net,
          invoke (FetchClient.createAgentVerticalClient net config) call
          = FetchClient.fetchJson net u init (FetchClient.timeoutOf config)) /\
      lookup name (FetchClient.init_headers init)
      = match lookup name (match headers config with Some h => h | None => [] end) with
        | Some v => Some v
        | None => lookup name defaultHeaders
        end.
Proof.
  intros config call name Henc.
  destruct (fetch_invoke_encoded config call Henc) as (u & init & Hinv).
  exists u, init. split; [exact Hinv |].
  assert (Hsent : snd (invoke (FetchClient.createAgentVerticalClient silentNet config)
                              call [])
                  = [] ++ [{| url := u; method := FetchClient.init_method init;
                              req_headers := FetchClient.init_headers init;
                              req_body := FetchClient.init_body init |}]).
  { rewrite Hinv. apply fetchJson_sent. }
  destruct (fetch_request_shape silentNet config call [] _ Hsent) as [Hh _].
  simpl in Hh. rewrite Hh.
  unfold FetchClient.buildHeaders.
  apply lookup_spread.
  vm_compute. repeat constructor; simpl; intuition discriminate.
Qed.

Lemma fetch_headers_object_witness :
  encodes CallListDomains = true /\
  exists u init,
    (forall net,
        invoke (FetchClient.createAgentVerticalClient net customHeaders)
               CallListDomains
        = FetchClient.fetchJson net u init (FetchClient.timeoutOf customHeaders)) /\
    lookup (lit "Accept") (FetchClient.init_headers init)
    = Some (lit "text/plain").
Proof.
  split; [reflexivity |].
  exact (fetch_headers_object customHeaders CallListDomains (lit "Accept") eq_refl).
Defined.

(** X9: [applyTemplate] is the only operation that posts.  In the
    fetch-based client its request is a POST whose body is the template
    configuration, and every other request is a GET without body; in the
    sdk-core-based client it is the only use of [http.post], every other
    operation being one [http.get] (or a throw before it). *)
Theorem only_applyTemplate_posts :
  forall (net : Net)
         (createHttpClient : SdkClient.HttpClientConfig -> SdkClient.HttpClient)
         (config : AgentVerticalClientConfig) (call : Call) (log : Log),
    let fetchClient := FetchClient.createAgentVerticalClient net config in
    let sdkClient := SdkClient.createAgentVerticalClient createHttpClient config in
    let http := createHttpClient (SdkClient.httpClientConfig config) in
    (forall req,
        snd (invoke fetchClient call log) = log ++ [req] ->
        match call with
        | CallApplyTemplate c =>
            method req = POST /\ req_body req = Some (TemplateConfig_toJson c)
        | _ => method req = GET /\ req_body req = None
        end) /\
    match call with
    | CallApplyTemplate c =>
        invoke sdkClient call
        = SdkClient.callApi
            (SdkClient.post http (lit "/vertical/templates/apply") c)
    | _ =>
        exists operation,
          GetOrThrow http operation /\
          invoke sdkClient call = SdkClient.callApi operation
    end.
Proof.
  intros net createHttpClient config call log fetchClient sdkClient http.
  split.
  - intros req Hsent.
    apply (fetch_request_shape net config call log req Hsent).
  - subst sdkClient.
    destruct call; simpl; try reflexivity;
      try (eexists; split; [| reflexivity]; constructor);
      case_encoding; (eexists; split; [| reflexivity]; constructor).
Qed.

Lemma only_applyTemplate_posts_witness :
  (exists req,
      snd (invoke (FetchClient.createAgentVerticalClient silentNet localhost)
                  (CallApplyTemplate applyContractReview) [])
      = [] ++ [req] /\
      method req = POST /\
      req_body req = Some (TemplateConfig_toJson applyContractReview)) /\
  (exists req,
      snd (invoke (FetchClient.createAgentVerticalClient silentNet localhost)
                  (CallGetTemplate (lit "contract_review")) [])
      = [] ++ [req] /\
      method req = GET /\
      req_body req = None).
Proof.
  split.
  - eexists. split; [reflexivity |].
    exact (proj1 (only_applyTemplate_posts
                    silentNet (fun _ => throwingHttpClient boom) localhost
                    (CallApplyTemplate applyContractReview) [])
                 _ eq_refl).
  - eexists. split; [reflexivity |].
    exact (proj1 (only_applyTemplate_posts
                    silentNet (fun _ => throwingHttpClient boom) localhost
                    (CallGetTemplate (lit "contract_review")) [])
                 _ eq_refl).
Defined.

End RequestFacts.

(** ** Query strings, timeouts and endpoints *)

Module EndpointFacts.
Import JS Types Wire Client Url Samples Notions.
Import UrlFacts AdapterFacts OperationFacts EnvelopeSpec RequestFacts.

#[local] Arguments lit : simpl never.

(** *** Form encoding keeps [&] and [=] out *)

#[local] Arguments percentEncode : simpl never.

Lemma formUnescaped_plain c : formUnescaped c = true -> plain c.
Proof.
  intros H. split; intros ->; vm_compute in H; discriminate H.
Qed.

Lemma hexDigit_plain d : plain (hexDigit d).
Proof.
  unfold hexDigit, plain. destruct (N.ltb_spec d 10); lia.
Qed.

Lemma percentEncode_plain cp : Forall plain (percentEncode cp).
Proof.
  unfold percentEncode.
  induction (utf8 cp) as [| o os IH]; [constructor |].
  change (Forall plain (percent o ++ List.concat (map percent os))).
  apply Forall_app. split; [| exact IH].
  unfold percent. repeat constructor; try apply hexDigit_plain;
    unfold plain; lia.
Qed.

Lemma formEncode_cons c rest :
  formEncode (c :: rest)
  = if formUnescaped c then c :: formEncode rest
    else if N.eqb c 32 then 43%N :: formEncode rest
    else if isHighSurrogate c then
      match rest with
      | d :: rest' =>
          if isLowSurrogate d then
            percentEncode (codePoint c d) ++ formEncode rest'
          else percentEncode 65533 ++ formEncode rest
      | [] => percentEncode 65533
      end
    else if isLowSurrogate c then percentEncode 65533 ++ formEncode rest
    else percentEncode c ++ formEncode rest.
Proof. reflexivity. Qed.

Lemma formEncode_plain_bounded :
  forall n s, (List.length s <= n)%nat -> Forall plain (formEncode s).
Proof.
  induction n as [| n IH]; intros s Hlen.
  - destruct s; simpl in Hlen; [constructor | lia].
  - destruct s as [| c rest]; [constructor |].
    simpl in Hlen. rewrite formEncode_cons.
    destruct (formUnescaped c) eqn:U.
    + constructor; [apply formUnescaped_plain; exact U | apply IH; lia].
    + destruct (N.eqb c 32).
      * constructor; [unfold plain; lia | apply IH; lia].
      * destruct (isHighSurrogate c).
        -- destruct rest as [| d rest'];
             [apply percentEncode_plain |].
           destruct (isLowSurrogate d); apply Forall_app; split;
             try apply percentEncode_plain; apply IH; simpl in *; lia.
        -- destruct (isLowSurrogate c); apply Forall_app; split;
             try apply percentEncode_plain; apply IH; lia.
Qed.

Lemma formEncode_plain s : Forall plain (formEncode s).
Proof. apply (formEncode_plain_bounded (List.length s)). lia. Qed.

(** *** Reading a query string back *)

Lemma splitOn_last sep s :
  Forall (fun c => c <> sep) s -> splitOn sep s = [s].
Proof.
  induction 1 as [| c s Hc _ IH]; simpl; [reflexivity |].
  apply N.eqb_neq in Hc. rewrite Hc, IH. reflexivity.
Qed.

Lemma splitOn_inner sep a b :
  Forall (fun c => c <> sep) a ->
  splitOn sep (a ++ sep :: b) = a :: splitOn sep b.
Proof.
  induction 1 as [| c a Hc _ IH]; simpl.
  - rewrite N.eqb_refl. reflexivity.
  - apply N.eqb_neq in Hc. rewrite Hc, IH. reflexivity.
Qed.

Lemma parsePair_spec k v :
  Forall (fun c => c <> 61%N) k -> parsePair (k ++ 61%N :: v) = (k, v).
Proof.
  induction 1 as [| c k Hc _ IH]; simpl; [reflexivity |].
  apply N.eqb_neq in Hc. rewrite Hc, IH. reflexivity.
Qed.

Lemma joinParams_nonempty ps : ps <> [] -> joinParams ps <> [].
Proof.
  destruct ps as [| [k v] [| p ps]]; [congruence | |]; intros _ H;
    apply (f_equal (@List.length _)) in H; simpl in H;
    rewrite !length_app in H; simpl in H; lia.
Qed.

Lemma pair_without_ampersand k v :
  Forall (fun c => c <> 38%N) (formEncode k ++ 61%N :: formEncode v).
Proof.
  apply Forall_app. split; [| constructor; [lia |]];
    (eapply Forall_impl; [| apply formEncode_plain]);
    intros c [H _]; exact H.
Qed.

Lemma name_without_equals k : Forall (fun c => c <> 61%N) (formEncode k).
Proof.
  eapply Forall_impl; [| apply formEncode_plain].
  intros c [_ H]. exact H.
Qed.

(** Splitting the serialised parameters at [&] and [=] gives the
    parameters back, form-encoded: a value cannot add or split one. *)
Lemma parseQuery_joinParams ps :
  parseQuery (joinParams ps) = encodedParams ps.
Proof.
  induction ps as [| [k v] ps IH]; [reflexivity |].
  destruct ps as [| p ps].
  - unfold parseQuery.
    destruct (joinParams [(k, v)]) eqn:J;
      [exfalso; apply (joinParams_nonempty [(k, v)]); [discriminate | exact J] |].
    rewrite <- J. simpl.
    rewrite (splitOn_last 38 _ (pair_without_ampersand k v)). simpl.
    rewrite (parsePair_spec _ _ (name_without_equals k)). reflexivity.
  - unfold parseQuery.
    destruct (joinParams ((k, v) :: p :: ps)) eqn:J;
      [exfalso; apply (joinParams_nonempty ((k, v) :: p :: ps));
         [discriminate | exact J] |].
    rewrite <- J.
    change (joinParams ((k, v) :: p :: ps))
      with (formEncode k ++ [61%N] ++ formEncode v ++ [38%N]
              ++ joinParams (p :: ps)).
    replace (formEncode k ++ [61%N] ++ formEncode v ++ [38%N]
               ++ joinParams (p :: ps))
      with ((formEncode k ++ 61%N :: formEncode v) ++ 38%N
              :: joinParams (p :: ps))
      by (rewrite <- app_assoc; reflexivity).
    rewrite (splitOn_inner 38 _ _ (pair_without_ampersand k v)).
    change (map parsePair
              ((formEncode k ++ 61%N :: formEncode v)
                 :: splitOn 38 (joinParams (p :: ps))))
      with (parsePair (formEncode k ++ 61%N :: formEncode v)
              :: map parsePair (splitOn 38 (joinParams (p :: ps)))).
    rewrite (parsePair_spec _ _ (name_without_equals k)).
    unfold parseQuery in IH.
    destruct (joinParams (p :: ps)) eqn:J';
      [exfalso; apply (joinParams_nonempty (p :: ps));
         [discriminate | exact J'] |].
    rewrite IH. reflexivity.
Qed.

Lemma fetch_params k1 v1 k2 v2 :
  jsstring_eqb (lit k2) (lit k1) = false ->
  FetchClient.setIfDefined k2 v2 (FetchClient.setIfDefined k1 v1 [])
  = definedParam k1 v1 ++ definedParam k2 v2.
Proof.
  intros H. destruct v1, v2; simpl; try rewrite H; reflexivity.
Qed.

Lemma sdk_params k1 v1 k2 v2 :
  jsstring_eqb (lit k2) (lit k1) = false ->
  SdkClient.setIfDefined k2 v2 (SdkClient.setIfDefined k1 v1 [])
  = definedParam k1 v1 ++ definedParam k2 v2.
Proof.
  intros H. destruct v1, v2; simpl; try rewrite H; reflexivity.
Qed.

(** X10: [getTemplates] sends the options that are defined, [domain]
    before [limit], the limit as [String(limit)] prints it.  The
    fetch-based client asks for
    [/vertical/templates], followed by [?] and the query string only when
    an option is defined; read back at [&] and [=] the query string holds
    exactly those options, form-encoded.  The sdk-core-based client hands
    the same options, as they are, to [http.get]. *)
Theorem getTemplates_query :
  forall (net : Net)
         (createHttpClient : SdkClient.HttpClientConfig -> SdkClient.HttpClient)
         (config : AgentVerticalClientConfig)
         (options : option TemplatesOptions) (log : Log),
    let fetchClient := FetchClient.createAgentVerticalClient net config in
    let sdkClient := SdkClient.createAgentVerticalClient createHttpClient config in
    let http := createHttpClient (SdkClient.httpClientConfig config) in
    let params :=
      definedParam "domain"
        (match options with Some o => to_domain o | None => None end)
      ++ definedParam "limit"
           (match options with
            | Some o => option_map String_of_number (to_limit o)
            | None => None
            end) in
    (exists req query,
        snd (getTemplates fetchClient options log) = log ++ [req] /\
        url req
        = baseUrl config ++ lit "/vertical/templates"
            ++ match query with [] => [] | _ => 63%N :: query end /\
        (query = [] <-> params = []) /\
        parseQuery query = encodedParams params) /\
    getTemplates sdkClient options
    = SdkClient.callApi
        (SdkClient.get http (lit "/vertical/templates")
           (Some {| SdkClient.queryParams := params |})).
Proof.
  intros net createHttpClient config options log fetchClient sdkClient http params.
  assert (Hkeys : jsstring_eqb (lit "limit") (lit "domain") = false)
    by reflexivity.
  split.
  - exists {| url := baseUrl config ++ lit "/vertical/templates"
                       ++ match joinParams params with
                          | [] => []
                          | _ => 63%N :: joinParams params
                          end;
              method := GET;
              req_headers := FetchClient.buildHeaders (headers config);
              req_body := None |}, (joinParams params).
    split; [| split; [reflexivity | split]].
    + subst fetchClient. simpl.
      rewrite (fetch_params "domain" _ "limit" _ Hkeys).
      rewrite fetchJson_sent. fold params.
      destruct (joinParams params); reflexivity.
    + split.
      * intros J. destruct params as [| p ps] eqn:P; [reflexivity |].
        exfalso. apply (joinParams_nonempty (p :: ps)); [discriminate | exact J].
      * intros ->. reflexivity.
    + apply parseQuery_joinParams.
  - subst sdkClient. simpl.
    rewrite (sdk_params "domain" _ "limit" _ Hkeys). reflexivity.
Qed.

(** X11: [getToolCollection] sends the options that are defined, [domain]
    before [template_name].  The fetch-based client asks for
    [/vertical/tools?] followed by the query string (the [?] is there even
    when no option is defined); read back at [&] and [=] the query string
    holds exactly those options, form-encoded.  The sdk-core-based client
    hands the same options, as they are, to [http.get]. *)
Theorem getToolCollection_query :
  forall (net : Net)
         (createHttpClient : SdkClient.HttpClientConfig -> SdkClient.HttpClient)
         (config : AgentVerticalClientConfig)
         (options : ToolOptions) (log : Log),
    let fetchClient := FetchClient.createAgentVerticalClient net config in
    let sdkClient := SdkClient.createAgentVerticalClient createHttpClient config in
    let http := createHttpClient (SdkClient.httpClientConfig config) in
    let params :=
      definedParam "domain" (tc_domain options)
      ++ definedParam "template_name" (tc_template_name options) in
    (exists req query,
        snd (getToolCollection fetchClient options log) = log ++ [req] /\
        url req = baseUrl config ++ lit "/vertical/tools" ++ 63%N :: query /\
        (query = [] <-> params = []) /\
        parseQuery query = encodedParams params) /\
    getToolCollection sdkClient options
    = SdkClient.callApi
        (SdkClient.get http (lit "/vertical/tools")
           (Some {| SdkClient.queryParams := params |})).
Proof.
  intros net createHttpClient config options log fetchClient sdkClient http params.
  assert (Hkeys : jsstring_eqb (lit "template_name") (lit "domain") = false)
    by reflexivity.
  split.
  - exists {| url := baseUrl config ++ lit "/vertical/tools"
                       ++ 63%N :: joinParams params;
              method := GET;
              req_headers := FetchClient.buildHeaders (headers config);
              req_body := None |}, (joinParams params).
    split; [| split; [reflexivity | split]].
    + subst fetchClient. simpl.
      rewrite (fetch_params "domain" _ "template_name" _ Hkeys).
      rewrite fetchJson_sent. reflexivity.
    + split.
      * intros J. destruct params as [| p ps] eqn:P; [reflexivity |].
        exfalso. apply (joinParams_nonempty (p :: ps)); [discriminate | exact J].
      * intros ->. reflexivity.
    + apply parseQuery_joinParams.
  - subst sdkClient. simpl.
    rewrite (sdk_params "domain" _ "template_name" _ Hkeys). reflexivity.
Qed.

End EndpointFacts.

(** ** The configured timeout, and the paths of the two clients *)

Module CompatFacts.
Import JS Types Wire Client Url Samples Notions.
Import UrlFacts AdapterFacts OperationFacts EnvelopeSpec RequestFacts.

#[local] Arguments lit : simpl never.

(** X12: the timeout of the fetch-based client, the configured
    [timeoutMs] or 30000 ms when none is configured, is the cut-off of the
    wait for the response when [setTimeout] takes it as it is (from 1 to
    2^31 - 1 ms): a reply that takes less is handled as if it had come at
    once, and one that takes as long or longer, or never comes, yields the
    "Network error" envelope with status 0. *)
Theorem fetch_timeout_cutoff :
  forall (net : Net) (config : AgentVerticalClientConfig)
         (call : Call) (log : Log) (req : Request),
    let t := FetchClient.timeoutOf config in
    let p := invoke (FetchClient.createAgentVerticalClient net config) call log in
    let aborted :=
      Return (OkFalse {| error := JString (lit "Network error");
                         detail := JString (message_of FetchClient.AbortError) |}
                      0) in
    (1 <= t <= 2147483647)%Z ->
    snd p = log ++ [req] ->
    t = match timeoutMs config with Some ms => ms | None => 30000%Z end /\
    (forall latency r,
        net req = Answer latency r ->
        (0 <= latency)%Z ->
        ((latency < t)%Z ->
         fst p = fst (invoke (FetchClient.createAgentVerticalClient
                                (constNet 0 r) config) call log)) /\
        ((t <= latency)%Z -> fst p = aborted)) /\
    (net req = Silence -> fst p = aborted).
Proof.
  intros net config call log req t p aborted Hrange Hsent.
  subst p aborted.
  split; [reflexivity |].
  destruct (fetch_invoke_request net config call log req Hsent)
    as (u & init & Hinv & ->).
  rewrite (Hinv net). split.
  - intros latency r Hnet Hpos. split.
    + intros Hlat. rewrite (Hinv (constNet 0 r)).
      apply (fetchJson_in_time net u init _ log latency r Hnet Hlat).
      fold t. lia.
    + intros Hlate. apply fetchJson_timeout. right. eauto.
  - intros Hsilent. apply fetchJson_timeout. left. exact Hsilent.
Qed.

Lemma fetch_timeout_cutoff_witness :
  timeoutMs customHeaders = Some 1000%Z /\
  fst (invoke (FetchClient.createAgentVerticalClient
                 (constNet 1000 (Return (ok200 JNull))) customHeaders)
              CallListDomains [])
  = Return (OkFalse {| error := JString (lit "Network error");
                       detail := JString (message_of FetchClient.AbortError) |}
                    0) /\
  fst (invoke (FetchClient.createAgentVerticalClient
                 (constNet 999 (Return (ok200 JNull))) customHeaders)
              CallListDomains [])
  = Return (OkTrue JNull).
Proof.
  assert (Hrange : (1 <= FetchClient.timeoutOf customHeaders <= 2147483647)%Z)
    by (change (1 <= 1000 <= 2147483647)%Z; lia).
  split; [reflexivity |].
  split.
  - destruct (fetch_timeout_cutoff
                (constNet 1000 (Return (ok200 JNull))) customHeaders
                CallListDomains []
                {| url := lit "http://localhost:8093/vertical/domains";
                   method := GET;
                   req_headers := FetchClient.buildHeaders (headers customHeaders);
                   req_body := None |}
                Hrange eq_refl) as (_ & H & _).
    destruct (H 1000%Z (Return (ok200 JNull)) eq_refl ltac:(lia)) as (_ & Hlate).
    exact (Hlate (Z.le_refl 1000)).
  - destruct (fetch_timeout_cutoff
                (constNet 999 (Return (ok200 JNull))) customHeaders
                CallListDomains []
                {| url := lit "http://localhost:8093/vertical/domains";
                   method := GET;
                   req_headers := FetchClient.buildHeaders (headers customHeaders);
                   req_body := None |}
                Hrange eq_refl) as (_ & H & _).
    destruct (H 999%Z (Return (ok200 JNull)) eq_refl ltac:(lia)) as (Hin & _).
    refine (eq_trans (Hin eq_refl) _). reflexivity.
Defined.

Lemma delimiter_endsPath c : delimiter c = false -> endsPath c = false.
Proof.
  unfold delimiter, endsPath. intros H.
  apply orb_false_elim in H. destruct H as [H H35].
  apply orb_false_elim in H. destruct H as [_ H63].
  rewrite H63, H35. reflexivity.
Qed.

Lemma encoded_endsPath s r :
  encodeURIComponent s = Return r ->
  Forall (fun c => endsPath c = false) r.
Proof.
  intros H. eapply Forall_impl; [| apply (encoded_not_delimiter s r H)].
  intros c Hc. apply delimiter_endsPath. exact Hc.
Qed.

(** X13: the two clients address the same endpoint.  For every call whose
    argument can be encoded there is one path, free of [?] and [#], such
    that the fetch-based client requests the base URL followed by that
    path (and then nothing, or [?] and a query string), and the
    sdk-core-based client hands that path to [http.post] for
    [applyTemplate] and to [http.get] for every other operation. *)
Theorem clients_address_same_path :
  forall (net : Net)
         (createHttpClient : SdkClient.HttpClientConfig -> SdkClient.HttpClient)
         (config : AgentVerticalClientConfig) (call : Call) (log : Log),
    let fetchClient := FetchClient.createAgentVerticalClient net config in
    let sdkClient := SdkClient.createAgentVerticalClient createHttpClient config in
    let http := createHttpClient (SdkClient.httpClientConfig config) in
    encodes call = true ->
    exists path,
      Forall (fun c => endsPath c = false) path /\
      (exists req suffix,
          snd (invoke fetchClient call log) = log ++ [req] /\
          url req = baseUrl config ++ path ++ suffix /\
          (suffix = [] \/ exists query, suffix = 63%N :: query)) /\
      match call with
      | CallApplyTemplate c =>
          invoke sdkClient call = SdkClient.callApi (SdkClient.post http path c)
      | _ =>
          exists options,
            invoke sdkClient call
            = SdkClient.callApi (SdkClient.get http path options)
      end.
Proof.
  intros net createHttpClient config call log fetchClient sdkClient http Henc.
  subst fetchClient sdkClient. unfold encodes in Henc.
  destruct call; simpl in Henc.
  - (* getTemplates *)
    exists (lit "/vertical/templates").
    split; [vm_compute; repeat constructor |]. split.
    + simpl. rewrite fetchJson_sent. do 2 eexists.
      split; [reflexivity |]. split; [reflexivity |].
      match goal with
      | |- context [joinParams ?ps] => destruct (joinParams ps)
      end; [left; reflexivity | right; eexists; reflexivity].
    + eexists. reflexivity.
  - (* applyTemplate *)
    exists (lit "/vertical/templates/apply").
    split; [vm_compute; repeat constructor |]. split.
    + simpl. rewrite fetchJson_sent. exists
        {| url := baseUrl config ++ lit "/vertical/templates/apply";
           method := POST;
           req_headers := FetchClient.buildHeaders (headers config);
           req_body := Some (TemplateConfig_toJson config0) |}, [].
      split; [reflexivity |]. split; [| left; reflexivity].
      try rewrite app_nil_r; reflexivity.
    + reflexivity.
  - (* validateTemplate *)
    destruct (encodeURIComponent templateName) as [name |] eqn:E;
      [| discriminate Henc].
    exists (lit "/vertical/templates/" ++ name ++ lit "/validate").
    split.
    { apply Forall_app. split; [vm_compute; repeat constructor |].
      apply Forall_app. split; [apply (encoded_endsPath _ _ E) |].
      vm_compute; repeat constructor. }
    split.
    + simpl. rewrite E. unfold bind, lift. simpl. rewrite fetchJson_sent.
      do 2 eexists. split; [reflexivity |]. split; [| left; reflexivity].
      try rewrite app_nil_r; reflexivity.
    + simpl. rewrite E. eexists. reflexivity.
  - (* getToolCollection *)
    exists (lit "/vertical/tools").
    split; [vm_compute; repeat constructor |]. split.
    + simpl. rewrite fetchJson_sent. do 2 eexists.
      split; [reflexivity |]. split; [| right; eexists; reflexivity].
      reflexivity.
    + eexists. reflexivity.
  - (* getDomainConfig *)
    destruct (encodeURIComponent domain) as [name |] eqn:E;
      [| discriminate Henc].
    exists (lit "/vertical/domains/" ++ name ++ lit "/config").
    split.
    { apply Forall_app. split; [vm_compute; repeat constructor |].
      apply Forall_app. split; [apply (encoded_endsPath _ _ E) |].
      vm_compute; repeat constructor. }
    split.
    + simpl. rewrite E. unfold bind, lift. simpl. rewrite fetchJson_sent.
      do 2 eexists. split; [reflexivity |]. split; [| left; reflexivity].
      try rewrite app_nil_r; reflexivity.
    + simpl. rewrite E. eexists. reflexivity.
  - (* getPromptPattern *)
    destruct (encodeURIComponent domain) as [name |] eqn:E;
      [| discriminate Henc].
    exists (lit "/vertical/domains/" ++ name ++ lit "/rules").
    split.
    { apply Forall_app. split; [vm_compute; repeat constructor |].
      apply Forall_app. split; [apply (encoded_endsPath _ _ E) |].
      vm_compute; repeat constructor. }
    split.
    + simpl. rewrite E. unfold bind, lift. simpl. rewrite fetchJson_sent.
      do 2 eexists. split; [reflexivity |]. split; [| left; reflexivity].
      try rewrite app_nil_r; reflexivity.
    + simpl. rewrite E. eexists. reflexivity.
  - (* listDomains *)
    exists (lit "/vertical/domains").
    split; [vm_compute; repeat constructor |]. split.
    + simpl. rewrite fetchJson_sent. do 2 eexists.
      split; [reflexivity |]. split; [| left; reflexivity].
      try rewrite app_nil_r; reflexivity.
    + eexists. reflexivity.
  - (* getTemplate *)
    destruct (encodeURIComponent templateName) as [name |] eqn:E;
      [| discriminate Henc].
    exists (lit "/vertical/templates/" ++ name).
    split.
    { apply Forall_app. split; [vm_compute; repeat constructor |].
      apply (encoded_endsPath _ _ E). }
    split.
    + simpl. rewrite E. unfold bind, lift. simpl. rewrite fetchJson_sent.
      do 2 eexists. split; [reflexivity |]. split; [| left; reflexivity].
      try rewrite app_nil_r; reflexivity.
    + simpl. rewrite E. eexists. reflexivity.
Qed.

Lemma clients_address_same_path_witness :
  encodes (CallGetDomainConfig astralName) = true /\
  exists path,
    Forall (fun c => endsPath c = false) path /\
    (exists req suffix,
        snd (invoke (FetchClient.createAgentVerticalClient silentNet localhost)
                    (CallGetDomainConfig astralName) [])
        = [] ++ [req] /\
        url req = baseUrl localhost ++ path ++ suffix /\
        (suffix = [] \/ exists query, suffix = 63%N :: query)) /\
    exists options,
      invoke (SdkClient.createAgentVerticalClient
                (fun _ => throwingHttpClient boom) localhost)
             (CallGetDomainConfig astralName)
      = SdkClient.callApi
          (SdkClient.get (throwingHttpClient boom) path options).
Proof.
  split; [reflexivity |].
  exact (clients_address_same_path
           silentNet (fun _ => throwingHttpClient boom) localhost
           (CallGetDomainConfig astralName) [] eq_refl).
Defined.

End CompatFacts.

(** ** Success in the sdk-core-based client *)

Module SdkSuccessFacts.
Import JS Types Wire Client Samples Notions.
Import AdapterFacts OperationFacts.

#[local] Arguments lit : simpl never.

(** X14: an operation of the sdk-core-based client returns the success
    envelope with [data] exactly when its one use of the [HttpClient]
    returned a response with that data; the status of that response is not
    passed on. *)
Theorem sdk_success_iff :
  forall (createHttpClient : SdkClient.HttpClientConfig -> SdkClient.HttpClient)
         (config : AgentVerticalClientConfig) (call : Call) (log : Log)
         (data : Json),
    let client := SdkClient.createAgentVerticalClient createHttpClient config in
    let http := createHttpClient (SdkClient.httpClientConfig config) in
    fst (invoke client call log) = Return (OkTrue data) <->
    exists operation status,
      SdkClient.SingleRequest http operation /\
      invoke client call = SdkClient.callApi operation /\
      fst (operation log)
      = Return {| SdkClient.data := data; SdkClient.hr_status := status |}.
Proof.
  intros createHttpClient config call log data client http. subst client.
  split.
  - intros H.
    destruct (sdk_invoke_single createHttpClient config call)
      as (operation & Hsingle & Hinv).
    rewrite Hinv in H.
    destruct (fst (operation log)) as [r | e] eqn:Hop.
    + rewrite (callApi_return operation log r Hop) in H.
      injection H as <-. destruct r as [d st]. simpl.
      exists operation, st. repeat split; assumption.
    + rewrite (callApi_throw operation log e Hop) in H.
      destruct e; discriminate H.
  - intros (operation & status & _ & Hinv & Hop).
    rewrite Hinv. apply (callApi_return operation log _ Hop).
Qed.

End SdkSuccessFacts.
